(** * data_gen: the random fixture generator of [generate_database.py]

    A shallow embedding of [src/data_gen/generate_database.py].  The
    program is a sequence of calls to the pseudo-random generator, to the
    clock and to Faker; every such call is an effect on a [World] that is
    threaded through the code by a state-and-exception monad.  Theorems
    quantify over all worlds, that is over every outcome of every random
    draw and every reading of the clock.

    Conventions.
    - A Python [int] is a [Z].
    - A [datetime] is its number of whole seconds since 1970-01-01 (the
      microseconds play no part: Faker converts through [timetuple]); a
      [date] is its number of days since 1970-01-01.
    - A Python [float] is the rational number it stands for: arithmetic on
      amounts is exact arithmetic in [Q], and [round] rounds half to even.
    - [asdict(R(...))] is the record [R] itself: the dictionary has the
      fields of the class as keys, in declaration order.
    - A call that draws at random takes the next cell of the [tape] of its
      world and maps it onto its range, so that every value of the range is
      the outcome on some tape and no other value is.  The one tape serves
      both the [random] module and Faker's own generator.
    - The library calls follow their library's behaviour: [random.randint]
      and Faker's [date_between_dates] raise [ValueError] on an empty range,
      [list.pop] raises [IndexError] out of range, Faker's dates are the
      UTC day of an instant drawn between the two bounds. *)

From Stdlib Require Import String Ascii.
From Stdlib Require Import ZArith NArith List Bool Lia QArith.
From Stdlib Require Import Qround Qabs Lqa Sorting.Sorted Permutation.
Import ListNotations.

Local Open Scope Z_scope.

(** ** The world outside the program *)

(** Exceptions the modelled library calls can raise. *)
Inductive PyError : Type :=
| ValueError
| IndexError.

(** Faker's text providers: each maps the outcome of its random choice to
    the text it returns. *)
Record Provider : Type := mkProvider {
  name_text : Z -> string;
  address_text : Z -> string;
  ssn_text : Z -> string;
  company_text : Z -> string
}.

(** [tape] gives the raw outcome of the n-th draw of the pseudo-random
    source, [clock] the n-th reading of the system clock (seconds since the
    epoch); [drawn] and [asked] count the draws and readings made so far. *)
Record World : Type := mkWorld {
  tape : N -> Z;
  drawn : N;
  clock : N -> Z;
  asked : N;
  locale : Provider
}.

(** ** The monad of the program: state passing over [World], with errors *)

Definition M (A : Type) : Type := World -> PyError + (A * World).

Definition ret {A} (a : A) : M A := fun w => inr (a, w).

Definition bind {A B} (c : M A) (k : A -> M B) : M B :=
  fun w => match c w with
           | inl e => inl e
           | inr (a, w') => k a w'
           end.

Definition raise {A} (e : PyError) : M A := fun _ => inl e.

Declare Scope py_scope.
Delimit Scope py_scope with py.
Notation "x <- c ;; k" := (bind c (fun x => k))
  (at level 61, c at next level, right associativity) : py_scope.
Notation "' pat <- c ;; k" := (bind c (fun x => match x with pat => k end))
  (at level 61, pat pattern, c at next level, right associativity) : py_scope.
Local Open Scope py_scope.

(** One raw draw from the pseudo-random source. *)
Definition next_raw : M Z :=
  fun w => inr (tape w (drawn w),
                mkWorld (tape w) (N.succ (drawn w)) (clock w) (asked w) (locale w)).

(** One reading of the clock ([datetime.now]). *)
Definition datetime_now : M Z :=
  fun w => inr (clock w (asked w),
                mkWorld (tape w) (drawn w) (clock w) (N.succ (asked w)) (locale w)).

Definition get_locale : M Provider := fun w => inr (locale w, w).

(** List comprehension [[f(x) for x in xs]]. *)
Fixpoint comprehension {A B} (f : A -> M B) (xs : list A) : M (list B) :=
  match xs with
  | [] => ret []
  | x :: xs' => y <- f x ;; ys <- comprehension f xs' ;; ret (y :: ys)
  end.

(** [for x in xs: body], the loop body acting on the variables [s]. *)
Fixpoint for_each {A S} (xs : list A) (body : A -> S -> M S) (s : S) : M S :=
  match xs with
  | [] => ret s
  | x :: xs' => s' <- body x s ;; for_each xs' body s'
  end.

(** ** Python built-ins and the [random] module *)

Module Py.

(** [range(a, b)]. *)
Definition range (a b : Z) : list Z :=
  map (fun i => a + Z.of_nat i) (seq 0 (Z.to_nat (b - a))).

(** [len(l)]. *)
Definition len {A} (l : list A) : Z := Z.of_nat (length l).

(** [l.pop(i)]: removes and returns the item at index [i]; a negative
    index counts from the end; [IndexError] out of range. *)
Definition pop {A} (l : list A) (i : Z) : M (A * list A) :=
  let j := if i <? 0 then i + len l else i in
  if (0 <=? j) && (j <? len l) then
    match nth_error l (Z.to_nat j) with
    | Some x => ret (x, firstn (Z.to_nat j) l ++ skipn (S (Z.to_nat j)) l)
    | None => raise IndexError
    end
  else raise IndexError.

(** [l[i]] for a non-negative index. *)
Definition item {A} (l : list A) (i : nat) : M A :=
  match nth_error l i with
  | Some x => ret x
  | None => raise IndexError
  end.

(** [enumerate(l)]. *)
Definition enumerate {A} (l : list A) : list (Z * A) :=
  combine (range 0 (len l)) l.

(** [random.randint(a, b)]: an integer of [a..b], both ends included;
    [ValueError] when the range is empty. *)
Definition randint (a b : Z) : M Z :=
  if a <=? b then r <- next_raw ;; ret (a + r mod (b - a + 1))
  else raise ValueError.

(** [random.random()]: one of the 2^53 equidistant floats of [0, 1). *)
Definition random : M Q :=
  r <- next_raw ;; ret (Qmake (r mod 2 ^ 53) (2 ^ 53)).

(** [itertools.accumulate] on weights. *)
Fixpoint accumulate (acc : Q) (ws : list Q) : list Q :=
  match ws with
  | [] => []
  | w :: ws' => (acc + w)%Q :: accumulate (acc + w)%Q ws'
  end.

(** [bisect.bisect(a, x, 0, hi)] on a sorted list: the first index below
    [hi] whose entry exceeds [x], or [hi]. *)
Fixpoint bisect (a : list Q) (x : Q) (hi : nat) : nat :=
  match hi, a with
  | S hi', e :: a' => if Qle_bool e x then S (bisect a' x hi') else O
  | _, _ => O
  end.

(** [random.choices(population, weights=weights)] with the default [k=1]:
    a list of one item, [population[bisect(cum_weights, random() * total,
    0, n - 1)]]. *)
Definition choices {A} (population : list A) (weights : list Q) : M (list A) :=
  let n := length population in
  let cum_weights := accumulate 0 weights in
  if negb (length cum_weights =? n)%nat then raise ValueError
  else
    match cum_weights with
    | [] => raise IndexError
    | _ :: _ =>
        let total := last cum_weights 0%Q in
        if Qle_bool total 0 then raise ValueError
        else
          u <- random ;;
          x <- item population (bisect cum_weights (u * total)%Q (n - 1)) ;;
          ret [x]
    end.

(** Rounding to the nearest integer, ties to the even one. *)
Definition round_half_even (x : Q) : Z :=
  let f := Qfloor x in
  match Qcompare (x - inject_Z f) (1 # 2) with
  | Lt => f
  | Gt => f + 1
  | Eq => if Z.even f then f else f + 1
  end.

(** [round(x, ndigits)] for [ndigits >= 0]. *)
Definition round (x : Q) (ndigits : nat) : Q :=
  (inject_Z (round_half_even (x * inject_Z (10 ^ Z.of_nat ndigits)))
   / inject_Z (10 ^ Z.of_nat ndigits))%Q.

(** [s.replace(old, new)] for single characters. *)
Fixpoint replace_char (old new : ascii) (s : string) : string :=
  match s with
  | EmptyString => EmptyString
  | String c s' =>
      String (if Ascii.eqb c old then new else c) (replace_char old new s')
  end.

End Py.

(** ** [datetime] *)

Definition SECONDS_PER_DAY : Z := 86400.

(** [timedelta(days=k)], in seconds. *)
Definition timedelta_days (k : Z) : Z := k * SECONDS_PER_DAY.

(** What Faker's date functions accept as a bound: a [datetime] or a
    [date]. *)
Inductive DateBound : Type :=
| a_datetime (seconds : Z)
| a_date (days : Z).

(** [datetime.date()]: the calendar day of an instant. *)
Definition date_of (seconds : Z) : Z := seconds / SECONDS_PER_DAY.

(** ** Faker *)

Module Faker.

(** [datetime_to_timestamp]: midnight for a [date]. *)
Definition datetime_to_timestamp (v : DateBound) : Z :=
  match v with
  | a_datetime s => s
  | a_date d => d * SECONDS_PER_DAY
  end.

(** [_rand_seconds(start, end)]: an instant of [start..end]; [ValueError]
    ("empty range") when [start > end]. *)
Definition rand_seconds (start_ts end_ts : Z) : M Z :=
  if start_ts <=? end_ts then
    r <- next_raw ;; ret (start_ts + r mod (end_ts - start_ts + 1))
  else raise ValueError.

(** [fake.date_time()]: an instant between the epoch and now. *)
Definition date_time : M Z :=
  now <- datetime_now ;;
  rand_seconds 0 now.

(** [fake.date_between_dates(date_start, date_end)]: the day of an instant
    drawn between the two bounds. *)
Definition date_between_dates (date_start date_end : DateBound) : M Z :=
  ts <- rand_seconds (datetime_to_timestamp date_start)
                     (datetime_to_timestamp date_end) ;;
  ret (date_of ts).

Definition name : M string :=
  p <- get_locale ;; r <- next_raw ;; ret (name_text p r).

Definition address : M string :=
  p <- get_locale ;; r <- next_raw ;; ret (address_text p r).

Definition ssn : M string :=
  p <- get_locale ;; r <- next_raw ;; ret (ssn_text p r).

Definition company : M string :=
  p <- get_locale ;; r <- next_raw ;; ret (company_text p r).

End Faker.

(** ** The program: constants and record classes *)

Definition DEFAULT_CUSTOMER_NUMBER : Z := 100.
Definition DEFAULT_LOANS_MAX_NUMBER : Z := 5 * DEFAULT_CUSTOMER_NUMBER.
Definition LOAN_STATUSES : list string :=
  ["GREEN"%string; "YELLOW"%string; "RED"%string].

(** Daily record of a loan's info, status, values.  The three ids carry
    the prefix [li_], and the id of [Customer] the prefix [c_], to keep
    them apart from the fields of the same name in the lookup records. *)
Record LoanInfo : Type := mkLoanInfo {
  li_loan_id : Z;
  li_loan_status_id : Z;
  li_lender_id : Z;
  recorded_on : Z;              (* datetime: seconds *)
  followup_on : Z;              (* date: days *)
  previous_payment_on : Z;      (* date: days *)
  next_payment_on : Z;          (* date: days *)
  due_interest_amount : Q;
  due_principal_amount : Q;
  due_escrow_amount : Q;
  due_fees_amount : Q;
  previous_payment_amount : Q;
  next_payment_amount : Q;
  credit_limit_amount : Q;
  number_of_unique_delinquencies : Z
}.

Record Customer : Type := mkCustomer {
  c_customer_id : Z;
  name : string;
  address : string;
  ssn : string;
  age : Z
}.

Record LoanStatus : Type := mkLoanStatus {
  loan_status_id : Z;
  loan_status_value : string
}.

Record Lender : Type := mkLender {
  lender_id : Z;
  lender_name : string
}.

(** A customer-loan pairing. *)
Record CustomerLoan : Type := mkCustomerLoan {
  loan_id : Z;
  customer_id : Z
}.

(** ** The program: generators *)

(** [round(10 ** random.randint(lo, hi) * random.random(), ndigits)]. *)
Definition random_amount (lo hi : Z) (ndigits : nat) : M Q :=
  e <- Py.randint lo hi ;;
  u <- Py.random ;;
  ret (Py.round (inject_Z (10 ^ e) * u)%Q ndigits).

Definition generate_loan_info_row (loan_id : Z) : M LoanInfo :=
  recorded <- Faker.date_time ;;
  now <- datetime_now ;;
  next_payment_on <-
    Faker.date_between_dates (a_datetime (recorded + timedelta_days 10))
                             (a_datetime now) ;;
  k <- Py.randint 7 70 ;;
  previous_payment_on <-
    Faker.date_between_dates (a_datetime (recorded - timedelta_days k))
                             (a_datetime recorded) ;;
  followup_on <-
    Faker.date_between_dates (a_date previous_payment_on)
                             (a_date next_payment_on) ;;
  loan_status_id <- Py.randint 0 2 ;;
  lender_id <- Py.randint 0 5 ;;
  due_interest_amount <- random_amount 1 5 2 ;;
  due_principal_amount <- random_amount 1 5 2 ;;
  due_escrow_amount <- random_amount 1 5 2 ;;
  due_fees_amount <- random_amount 1 5 2 ;;
  previous_payment_amount <- random_amount 1 5 2 ;;
  next_payment_amount <- random_amount 2 4 2 ;;
  credit_limit_amount <- random_amount 3 5 0 ;;
  number_of_unique_delinquencies <- Py.randint 0 10 ;;
  ret (mkLoanInfo loan_id loan_status_id lender_id
         recorded followup_on previous_payment_on next_payment_on
         due_interest_amount due_principal_amount due_escrow_amount
         due_fees_amount previous_payment_amount next_payment_amount
         credit_limit_amount number_of_unique_delinquencies).

Definition generate_loan_info_rows (n : Z) : M (list LoanInfo) :=
  comprehension generate_loan_info_row (Py.range 0 (n + 1)).

Definition newline : ascii := Ascii.ascii_of_nat 10.
Definition space : ascii := Ascii.ascii_of_nat 32.

Definition generate_customer (customer_id : Z) : M Customer :=
  name <- Faker.name ;;
  addr <- Faker.address ;;
  ssn <- Faker.ssn ;;
  age <- Py.randint 21 100 ;;
  ret (mkCustomer customer_id name (Py.replace_char newline space addr) ssn age).

Definition generate_customers (n : Z) : M (list Customer) :=
  comprehension generate_customer (Py.range 0 (n + 1)).

(** The fan-out distribution of [associate_loans_with_customers]. *)
Definition FAN_OUT_POPULATION : list Z := [1; 2; 3; 4; 5].
Definition FAN_OUT_WEIGHTS : list Q :=
  [7 # 10; 2 # 10; 5 # 100; 4 # 100; 1 # 100]%Q.

(** The two mutable lists of the association loop. *)
Definition AssocVars : Type := (list Z * list CustomerLoan)%type.

(** Body of the inner loop: one draw without replacement. *)
Definition draw_loan (customer_id : Z) (_ : Z) (vars : AssocVars) : M AssocVars :=
  let '(loan_ids, loan_customer_list) := vars in
  i <- Py.randint 0 (Py.len loan_ids - 1) ;;
  '(loan_id, loan_ids') <- Py.pop loan_ids i ;;
  ret (loan_ids', loan_customer_list ++ [mkCustomerLoan loan_id customer_id]).

(** Body of the outer loop: one customer. *)
Definition serve_customer (customer_id : Z) (vars : AssocVars) : M AssocVars :=
  picked <- Py.choices FAN_OUT_POPULATION FAN_OUT_WEIGHTS ;;
  num_loans_per_current_customer <- Py.item picked 0 ;;
  for_each (Py.range 0 num_loans_per_current_customer)
           (draw_loan customer_id) vars.

Definition associate_loans_with_customers (num_customers num_loans : Z)
  : M (list CustomerLoan) :=
  let loan_ids := Py.range 0 num_loans in
  vars <- for_each (Py.range 0 num_customers) serve_customer (loan_ids, []) ;;
  ret (snd vars).

Definition generate_lender (idx : Z) : M Lender :=
  company <- Faker.company ;;
  ret (mkLender idx company).

Definition generate_lenders (num_lenders : Z) : M (list Lender) :=
  comprehension generate_lender (Py.range 0 num_lenders).

Definition generate_loan_statuses : M (list LoanStatus) :=
  ret (map (fun '(n, value) => mkLoanStatus n value) (Py.enumerate LOAN_STATUSES)).

(** The dict of dataframes, one field per key. *)
Record Tables : Type := mkTables {
  customers : list Customer;
  loan_info : list LoanInfo;
  lenders : list Lender;
  statuses : list LoanStatus;
  loan_customer_lookup : list CustomerLoan
}.

Definition generate_all : M Tables :=
  customers <- generate_customers DEFAULT_CUSTOMER_NUMBER ;;
  loan_info <- generate_loan_info_rows DEFAULT_LOANS_MAX_NUMBER ;;
  lenders <- generate_lenders 5 ;;
  statuses <- generate_loan_statuses ;;
  loan_customer_list <-
    associate_loans_with_customers DEFAULT_CUSTOMER_NUMBER DEFAULT_LOANS_MAX_NUMBER ;;
  ret (mkTables customers loan_info lenders statuses loan_customer_list).

(** Sample worlds, for running the program. *)
Definition plain_locale : Provider :=
  mkProvider (fun _ => "Ann Lee"%string) (fun _ => "1 Main St"%string)
             (fun _ => "000-00-0000"%string) (fun _ => "Acme"%string).

Definition world_of (t : N -> Z) (now : Z) : World :=
  mkWorld t 0%N (fun _ => now) 0%N plain_locale.

(** The world after [n] more draws. *)
Definition skip_draws (n : N) (w : World) : World :=
  mkWorld (tape w) (drawn w + n) (clock w) (asked w) (locale w).

(** A number with at most two decimal places, and a whole number. *)
Definition two_decimals (q : Q) : Prop := exists n : Z, (q == n # 100)%Q.
Definition integral (q : Q) : Prop := exists n : Z, (q == inject_Z n)%Q.

(** A tape of varied outcomes (a linear congruential sequence). *)
Definition lcg_tape (n : N) : Z :=
  (6364136223846793005 * (Z.of_N n + 1) + 1442695040888963407) mod 2 ^ 63.

(** A world where the generators run to the end; one where the recorded
    instant is drawn five days before now; one where the recorded instant
    is 2020-09-13 12:26:40 and the previous payment is drawn at the end of
    its window, the recorded instant itself. *)
Definition calm_world : World := world_of lcg_tape 1700000000.
Definition late_world : World :=
  world_of (fun n => if (n =? 0)%N then 1699568000 else lcg_tape n) 1700000000.
Definition same_day_world : World :=
  world_of (fun n => if (n =? 0)%N then 1600000000
                     else if (n =? 3)%N then 604800 else 0) 1700000000.

(** Total correctness: [c] returns from [w], with a result and a final
    world that satisfy [P]. *)
Definition returns {A} (c : M A) (w : World) (P : A -> World -> Prop) : Prop :=
  exists a w', c w = inr (a, w') /\ P a w'.

(** The world after one run of [generate_loan_info_row]: 22 draws and two
    readings of the clock later. *)
Definition after_row (w : World) : World :=
  mkWorld (tape w) (drawn w + 22) (clock w) (asked w + 2) (locale w).

(** Whether [generate_loan_info_row] has room for its dates in [w]: the
    clock is past the epoch, and the recorded instant (the first draw) is at
    least ten days before the second reading of the clock. *)
Definition row_ready (w : World) : bool :=
  (0 <=? clock w (asked w))
  && (tape w (drawn w) mod (clock w (asked w) + 1) + timedelta_days 10
      <=? clock w (N.succ (asked w))).

Fixpoint rows_ready (n : nat) (w : World) : bool :=
  match n with
  | O => true
  | S n' => row_ready w && rows_ready n' (after_row w)
  end.

(** Whether every row of [generate_all] has room for its dates: the rows
    come after the 101 customers, of four draws each. *)
Definition dataset_ready (w : World) : bool :=
  rows_ready (Z.to_nat (DEFAULT_LOANS_MAX_NUMBER + 1))
    (Nat.iter (Z.to_nat (DEFAULT_CUSTOMER_NUMBER + 1)) (skip_draws 4) w).

(** The fan-out the next customer asks for: what the first two calls of
    the loop body of [associate_loans_with_customers] return in [w]. *)
Definition requested_fan_out (w : World) : Z :=
  match (picked <- Py.choices FAN_OUT_POPULATION FAN_OUT_WEIGHTS ;;
         Py.item picked 0) w with
  | inr (k, _) => k
  | inl _ => 0
  end.

(** The fan-outs that [n] customers ask for in turn: a customer takes one
    draw for the fan-out [k] and one for each of the [k] loans. *)
Fixpoint requested_fan_outs (n : nat) (w : World) : list Z :=
  match n with
  | O => []
  | S n' =>
      let k := requested_fan_out w in
      k :: requested_fan_outs n' (skip_draws (1 + Z.to_N k) w)
  end.

Definition total (ks : list Z) : Z := fold_right Z.add 0 ks.

(** [blocks_for cs ks blocks]: the i-th block has [ks_i] records, all of
    customer [cs_i]. *)
Inductive blocks_for : list Z -> list Z -> list (list CustomerLoan) -> Prop :=
| blocks_nil : blocks_for [] [] []
| blocks_cons c cs k ks blk blocks :
    Py.len blk = k ->
    Forall (fun r => customer_id r = c) blk ->
    blocks_for cs ks blocks ->
    blocks_for (c :: cs) (k :: ks) (blk :: blocks).

(** What a successful run of [generate_loan_info_row] says of its row. *)
Record row_facts (loan_id : Z) (row : LoanInfo) : Prop := {
  rf_id : li_loan_id row = loan_id;
  rf_next : date_of (recorded_on row) + 10 <= next_payment_on row;
  rf_prev_hi : previous_payment_on row <= date_of (recorded_on row);
  rf_prev_lo : date_of (recorded_on row) - 70 <= previous_payment_on row;
  rf_prev_ts : previous_payment_on row * SECONDS_PER_DAY <= recorded_on row;
  rf_followup :
    previous_payment_on row <= followup_on row <= next_payment_on row;
  rf_status : 0 <= li_loan_status_id row <= 2;
  rf_lender : 0 <= li_lender_id row <= 5;
  rf_delinq : 0 <= number_of_unique_delinquencies row <= 10;
  rf_amounts2 :
    Forall (fun q => (0 <= q)%Q /\ two_decimals q)
      [due_interest_amount row; due_principal_amount row;
       due_escrow_amount row; due_fees_amount row;
       previous_payment_amount row; next_payment_amount row];
  rf_credit :
    (0 <= credit_limit_amount row)%Q /\ integral (credit_limit_amount row)
}.

(** What a normal return of the association says of its list: [blocks] are
    the per-customer groups, [rest] the loans left in the pool. *)
Definition association_of (C L : Z) (w : World) (l : list CustomerLoan) : Prop :=
  exists blocks rest,
    l = concat blocks /\
    blocks_for (Py.range 0 C) (requested_fan_outs (Z.to_nat C) w) blocks /\
    Permutation (Py.range 0 L) (map loan_id l ++ rest).

(** A text without a line break. *)
Definition single_line (s : string) : Prop :=
  ~ In newline (list_ascii_of_string s).

(** How many records of the lookup belong to customer [c]. *)
Definition loans_of (c : Z) (l : list CustomerLoan) : nat :=
  count_occ Z.eq_dec (map customer_id l) c.

(** A second world of varied outcomes, the tape of [calm_world] divided
    by 7. *)
Definition mixed_world : World :=
  world_of (fun n => lcg_tape n / 7) 1700000000.

(** Whether some row of a table names the lender [k]. *)
Definition names_lender (k : Z) (rows : list LoanInfo) : bool :=
  existsb (fun row => li_lender_id row =? k) rows.

(** What a run of [generate_loan_info_row] from [w] says of the dates of
    its row against the clock: [recorded_on] lies between the epoch and
    the first reading, [next_payment_on] between ten days after the
    recorded day and the day of the second reading. *)
Record row_clock_facts (w : World) (row : LoanInfo) : Prop := {
  rc_recorded : 0 <= recorded_on row <= clock w (asked w);
  rc_next :
    date_of (recorded_on row) + 10 <= next_payment_on row
    <= date_of (clock w (N.succ (asked w)))
}.

(** * Properties *)

(** ** Running monadic code *)

Lemma bind_inr {A B} (c : M A) (k : A -> M B) w r :
  bind c k w = inr r ->
  exists a w1, c w = inr (a, w1) /\ k a w1 = inr r.
Proof.
  unfold bind. destruct (c w) as [e | [a w1]]; intros H.
  - discriminate.
  - exists a, w1. split; [reflexivity | exact H].
Qed.

Lemma bind_eq {A B} (c : M A) (k : A -> M B) w a w1 :
  c w = inr (a, w1) -> bind c k w = k a w1.
Proof. unfold bind. intros ->. reflexivity. Qed.

Lemma bind_raise {A B} (c : M A) (k : A -> M B) w e :
  c w = inl e -> bind c k w = inl e.
Proof. unfold bind. intros ->. reflexivity. Qed.

Lemma bind_assoc {A B C} (c : M A) (f : A -> M B) (g : B -> M C) w :
  bind (bind c f) g w = bind c (fun a => bind (f a) g) w.
Proof.
  unfold bind. destruct (c w) as [e | [a w1]]; reflexivity.
Qed.

Lemma bind_ret {A B} (a : A) (k : A -> M B) w : bind (ret a) k w = k a w.
Proof. reflexivity. Qed.

Lemma ret_inr {A} (a b : A) w w' : ret a w = inr (b, w') -> a = b /\ w = w'.
Proof. unfold ret. intros H. injection H as -> ->. split; reflexivity. Qed.

(** Peel the first call off a successful run. *)
Ltac step H :=
  let a := fresh "v" in
  let w1 := fresh "w" in
  let H1 := fresh "Hcall" in
  apply bind_inr in H; destruct H as (a & w1 & H1 & H).

Lemma skip_draws_0 w : skip_draws 0 w = w.
Proof. destruct w. unfold skip_draws. simpl. rewrite N.add_0_r. reflexivity. Qed.

Lemma skip_draws_add n m w : skip_draws m (skip_draws n w) = skip_draws (n + m) w.
Proof. unfold skip_draws. simpl. rewrite N.add_assoc. reflexivity. Qed.

Lemma next_raw_run w : next_raw w = inr (tape w (drawn w), skip_draws 1 w).
Proof. unfold next_raw, skip_draws. rewrite N.add_1_r. reflexivity. Qed.

(** ** The library calls *)

Lemma rand_in_range a b r : a <= b -> a <= a + r mod (b - a + 1) <= b.
Proof.
  intros Hab. pose proof (Z.mod_pos_bound r (b - a + 1)). lia.
Qed.

Lemma randint_run a b w :
  a <= b ->
  Py.randint a b w = inr (a + tape w (drawn w) mod (b - a + 1), skip_draws 1 w).
Proof.
  intros Hab. unfold Py.randint.
  destruct (Z.leb_spec a b); [| lia].
  rewrite (bind_eq _ _ _ _ _ (next_raw_run w)). reflexivity.
Qed.

Lemma randint_empty a b w : b < a -> Py.randint a b w = inl ValueError.
Proof.
  intros Hab. unfold Py.randint. destruct (Z.leb_spec a b); [lia | reflexivity].
Qed.

Lemma randint_inr a b w v w' :
  Py.randint a b w = inr (v, w') -> a <= v <= b /\ w' = skip_draws 1 w.
Proof.
  intros H. destruct (Z.le_gt_cases a b) as [Hab | Hab].
  - rewrite (randint_run a b w Hab) in H. injection H as <- <-.
    split; [apply rand_in_range; exact Hab | reflexivity].
  - rewrite randint_empty in H by lia. discriminate.
Qed.

Lemma rand_seconds_run a b w :
  a <= b ->
  Faker.rand_seconds a b w
  = inr (a + tape w (drawn w) mod (b - a + 1), skip_draws 1 w).
Proof.
  intros Hab. unfold Faker.rand_seconds.
  destruct (Z.leb_spec a b); [| lia].
  rewrite (bind_eq _ _ _ _ _ (next_raw_run w)). reflexivity.
Qed.

Lemma rand_seconds_empty a b w : b < a -> Faker.rand_seconds a b w = inl ValueError.
Proof.
  intros Hab. unfold Faker.rand_seconds.
  destruct (Z.leb_spec a b); [lia | reflexivity].
Qed.

Lemma rand_seconds_inr a b w v w' :
  Faker.rand_seconds a b w = inr (v, w') -> a <= v <= b /\ w' = skip_draws 1 w.
Proof.
  intros H. destruct (Z.le_gt_cases a b) as [Hab | Hab].
  - rewrite (rand_seconds_run a b w Hab) in H. injection H as <- <-.
    split; [apply rand_in_range; exact Hab | reflexivity].
  - rewrite rand_seconds_empty in H by lia. discriminate.
Qed.

Lemma date_of_mono s t : s <= t -> date_of s <= date_of t.
Proof.
  intros H. unfold date_of, SECONDS_PER_DAY. apply Z.div_le_mono; lia.
Qed.

Lemma date_of_midnight d : date_of (d * SECONDS_PER_DAY) = d.
Proof. unfold date_of, SECONDS_PER_DAY. apply Z.div_mul. lia. Qed.

Lemma date_of_shift s k : date_of (s + timedelta_days k) = date_of s + k.
Proof.
  unfold date_of, timedelta_days, SECONDS_PER_DAY. apply Z.div_add. lia.
Qed.

Lemma date_between_dates_inr a b w d w' :
  Faker.date_between_dates a b w = inr (d, w') ->
  date_of (Faker.datetime_to_timestamp a) <= d
  <= date_of (Faker.datetime_to_timestamp b).
Proof.
  unfold Faker.date_between_dates. intros H. step H.
  apply rand_seconds_inr in Hcall. apply ret_inr in H.
  destruct H as [<- _]. split; apply date_of_mono; lia.
Qed.

(** ** Rounding *)

Lemma Qdiv_inject_pos n p : (inject_Z n / inject_Z (Zpos p) == n # p)%Q.
Proof.
  unfold Qdiv, Qinv, Qmult, Qeq, inject_Z. simpl. lia.
Qed.

Lemma round_half_even_nonneg x : (0 <= x)%Q -> 0 <= Py.round_half_even x.
Proof.
  intros Hx. unfold Py.round_half_even.
  assert (Hf : 0 <= Qfloor x).
  { change 0 with (Qfloor 0). apply Qfloor_resp_le. exact Hx. }
  destruct (Qcompare (x - inject_Z (Qfloor x)) (1 # 2));
    [destruct (Z.even (Qfloor x)) | |]; lia.
Qed.

(** [round_half_even] is a nearest integer. *)
Lemma round_half_even_close x :
  (Qabs (inject_Z (Py.round_half_even x) - x) <= 1 # 2)%Q.
Proof.
  unfold Py.round_half_even.
  pose proof (Qfloor_le x) as Hlo. pose proof (Qlt_floor x) as Hhi.
  rewrite inject_Z_plus in Hhi. change (inject_Z 1) with 1%Q in Hhi.
  apply Qabs_Qle_condition.
  destruct (Qcompare (x - inject_Z (Qfloor x)) (1 # 2)) eqn:Hc.
  - apply Qeq_alt in Hc.
    destruct (Z.even (Qfloor x));
      [| rewrite inject_Z_plus; change (inject_Z 1) with 1%Q]; split; lra.
  - apply Qlt_alt in Hc. split; lra.
  - apply Qgt_alt in Hc. rewrite inject_Z_plus.
    change (inject_Z 1) with 1%Q. split; lra.
Qed.

Example round_ties_to_even :
  (Py.round (1 # 8) 2 == 12 # 100)%Q /\ (Py.round (3 # 8) 2 == 38 # 100)%Q /\
  (Py.round (5 # 2) 0 == 2)%Q /\ (Py.round (7 # 2) 0 == 4)%Q.
Proof. repeat split. Qed.

Lemma round_nonneg x nd : (0 <= x)%Q -> (0 <= Py.round x nd)%Q.
Proof.
  intros Hx. unfold Py.round.
  assert (Hp : 0 < 10 ^ Z.of_nat nd) by (apply Z.pow_pos_nonneg; lia).
  apply Qle_shift_div_l.
  - change 0%Q with (inject_Z 0). rewrite <- Zlt_Qlt. exact Hp.
  - rewrite Qmult_0_l. change 0%Q with (inject_Z 0). rewrite <- Zle_Qle.
    apply round_half_even_nonneg. apply Qmult_le_0_compat; [exact Hx |].
    change 0%Q with (inject_Z 0). rewrite <- Zle_Qle. lia.
Qed.

Lemma random_inr w u w' :
  Py.random w = inr (u, w') -> (0 <= u)%Q /\ (u < 1)%Q /\ w' = skip_draws 1 w.
Proof.
  unfold Py.random. intros H.
  rewrite (bind_eq _ _ _ _ _ (next_raw_run w)) in H.
  apply ret_inr in H. destruct H as [<- <-].
  pose proof (Z.mod_pos_bound (tape w (drawn w)) (2 ^ 53) eq_refl) as Hm.
  repeat split.
  - unfold Qle. simpl. lia.
  - unfold Qlt. simpl. change (Z.pow_pos 2 53) with (2 ^ 53). lia.
Qed.

(** An amount is the rounding of a non-negative number. *)
Lemma random_amount_inr lo hi nd w q w' :
  random_amount lo hi nd w = inr (q, w') ->
  (0 <= q)%Q /\
  exists n : Z, 0 <= n /\ (q == inject_Z n / inject_Z (10 ^ Z.of_nat nd))%Q.
Proof.
  unfold random_amount. intros H. step H. step H.
  apply random_inr in Hcall0. destruct Hcall0 as (Hu & _ & _).
  apply ret_inr in H. destruct H as [<- _].
  assert (Hx : (0 <= inject_Z (10 ^ v) * v0)%Q).
  { apply Qmult_le_0_compat; [| exact Hu].
    change 0%Q with (inject_Z 0). rewrite <- Zle_Qle. apply Z.pow_nonneg. lia. }
  split.
  - apply round_nonneg. exact Hx.
  - eexists. split; [| unfold Py.round; reflexivity].
    apply round_half_even_nonneg. apply Qmult_le_0_compat; [exact Hx |].
    change 0%Q with (inject_Z 0). rewrite <- Zle_Qle.
    apply Z.pow_nonneg. lia.
Qed.

(** ** One LoanInfo row *)

Lemma amount2 q :
  ((0 <= q)%Q /\
   exists n : Z, 0 <= n /\ (q == inject_Z n / inject_Z (10 ^ Z.of_nat 2))%Q) ->
  (0 <= q)%Q /\ two_decimals q.
Proof.
  intros [H0 (n & Hn & Hq)]. split; [exact H0 |].
  exists n. rewrite Hq.
  change (10 ^ Z.of_nat 2) with (Zpos 100). apply Qdiv_inject_pos.
Qed.

Lemma amount0 q :
  ((0 <= q)%Q /\
   exists n : Z, 0 <= n /\ (q == inject_Z n / inject_Z (10 ^ Z.of_nat 0))%Q) ->
  (0 <= q)%Q /\ integral q.
Proof.
  intros [H0 (n & Hn & Hq)]. split; [exact H0 |].
  exists n. rewrite Hq.
  change (10 ^ Z.of_nat 0) with 1. unfold Qeq, Qdiv, Qinv, Qmult, inject_Z.
  simpl. lia.
Qed.

Lemma generate_loan_info_row_inr loan_id w row w' :
  generate_loan_info_row loan_id w = inr (row, w') -> row_facts loan_id row.
Proof.
  unfold generate_loan_info_row. intros H.
  do 16 step H. apply ret_inr in H. destruct H as [<- _].
  apply date_between_dates_inr in Hcall1, Hcall3, Hcall4.
  apply randint_inr in Hcall2, Hcall5, Hcall6, Hcall14.
  apply random_amount_inr in Hcall7, Hcall8, Hcall9, Hcall10, Hcall11,
    Hcall12, Hcall13.
  cbn [Faker.datetime_to_timestamp] in *.
  rewrite date_of_shift in Hcall1.
  replace (v - timedelta_days v2) with (v + timedelta_days (- v2)) in Hcall3
    by (unfold timedelta_days; lia).
  rewrite date_of_shift in Hcall3.
  rewrite !date_of_midnight in Hcall4.
  constructor; simpl; try lia; try tauto.
  - pose proof (Z.mul_div_le v SECONDS_PER_DAY eq_refl) as Hd.
    fold (date_of v) in Hd.
    assert (v3 * SECONDS_PER_DAY <= date_of v * SECONDS_PER_DAY)
      by (apply Z.mul_le_mono_nonneg_r; [unfold SECONDS_PER_DAY |]; lia).
    lia.
  - repeat constructor; apply amount2; assumption.
  - apply amount0; assumption.
Qed.

(** ** When a row is produced *)

Lemma returns_bind {A B} (c : M A) (k : A -> M B) w (Q : B -> World -> Prop) :
  returns c w (fun a w1 => returns (k a) w1 Q) -> returns (bind c k) w Q.
Proof.
  intros (a & w1 & Hc & b & w2 & Hk & HQ). exists b, w2.
  split; [rewrite (bind_eq _ _ _ _ _ Hc); exact Hk | exact HQ].
Qed.

Lemma returns_weaken {A} (c : M A) w (P Q : A -> World -> Prop) :
  returns c w P -> (forall a w', P a w' -> Q a w') -> returns c w Q.
Proof.
  intros (a & w' & Hc & HP) HPQ. exists a, w'. split; [exact Hc | auto].
Qed.

Lemma returns_ret {A} (a : A) w (P : A -> World -> Prop) :
  P a w -> returns (ret a) w P.
Proof. intros HP. exists a, w. split; [reflexivity | exact HP]. Qed.

Lemma randint_returns a b w :
  a <= b ->
  returns (Py.randint a b) w (fun v w' => a <= v <= b /\ w' = skip_draws 1 w).
Proof.
  intros Hab. eexists. eexists. split; [apply randint_run; exact Hab |].
  split; [apply rand_in_range; exact Hab | reflexivity].
Qed.

Lemma date_between_dates_returns a b w :
  Faker.datetime_to_timestamp a <= Faker.datetime_to_timestamp b ->
  returns (Faker.date_between_dates a b) w
    (fun d w' =>
       date_of (Faker.datetime_to_timestamp a) <= d
       <= date_of (Faker.datetime_to_timestamp b) /\ w' = skip_draws 1 w).
Proof.
  intros Hab. unfold Faker.date_between_dates. apply returns_bind.
  eexists. eexists. split; [apply rand_seconds_run; exact Hab |].
  apply returns_ret. pose proof (rand_in_range _ _ (tape w (drawn w)) Hab).
  split; [split; apply date_of_mono; lia | reflexivity].
Qed.

Lemma random_amount_returns lo hi nd w :
  lo <= hi ->
  returns (random_amount lo hi nd) w (fun _ w' => w' = skip_draws 2 w).
Proof.
  intros Hlh. unfold random_amount. apply returns_bind.
  eapply returns_weaken; [apply randint_returns; exact Hlh |].
  cbv beta. intros e w1 [_ ->]. apply returns_bind.
  unfold Py.random. eexists. eexists. split.
  { rewrite (bind_eq _ _ _ _ _ (next_raw_run _)). reflexivity. }
  apply returns_ret. apply skip_draws_add.
Qed.

(** Run the next call of a [bind] chain with the lemma [L], whose
    precondition [t] proves. *)
Tactic Notation "call" constr(L) "by" tactic3(t) :=
  apply returns_bind; eapply returns_weaken; [apply L; t | cbv beta].

Lemma datetime_now_returns w :
  returns datetime_now w
    (fun now w' =>
       now = clock w (asked w) /\
       w' = mkWorld (tape w) (drawn w) (clock w) (N.succ (asked w)) (locale w)).
Proof. eexists. eexists. split; [reflexivity |]. split; reflexivity. Qed.

Lemma date_time_returns w :
  0 <= clock w (asked w) ->
  returns Faker.date_time w
    (fun recorded w' =>
       recorded = tape w (drawn w) mod (clock w (asked w) + 1) /\
       w' = skip_draws 1 (mkWorld (tape w) (drawn w) (clock w)
                            (N.succ (asked w)) (locale w))).
Proof.
  intros Hnow. unfold Faker.date_time.
  call datetime_now_returns by idtac. intros now w1 [-> ->].
  eexists. eexists. split; [apply rand_seconds_run; exact Hnow |].
  cbn [tape drawn]. rewrite Z.sub_0_r, Z.add_0_l. split; reflexivity.
Qed.

(** With that room a row is produced. *)
Lemma generate_loan_info_row_returns loan_id w :
  row_ready w = true ->
  returns (generate_loan_info_row loan_id) w
    (fun row w' => li_loan_id row = loan_id /\ w' = after_row w).
Proof.
  unfold row_ready. intros Hr. apply andb_prop in Hr.
  destruct Hr as [Hnow Hrec]. apply Z.leb_le in Hnow, Hrec.
  unfold generate_loan_info_row.
  call date_time_returns by (exact Hnow). intros recorded w1 [-> ->].
  call datetime_now_returns by idtac. intros now w2 [-> ->].
  cbn [skip_draws tape drawn clock asked locale].
  set (recorded := tape w (drawn w) mod (clock w (asked w) + 1)) in *.
  call date_between_dates_returns by (exact Hrec).
  cbn [Faker.datetime_to_timestamp]. rewrite date_of_shift.
  intros next w1 [Hnext ->].
  call randint_returns by lia. intros k w2 [Hk ->].
  call date_between_dates_returns by
    (cbn [Faker.datetime_to_timestamp]; unfold timedelta_days,
       SECONDS_PER_DAY; lia).
  cbn [Faker.datetime_to_timestamp]. intros prev w3 [Hprev ->].
  call date_between_dates_returns by
    (cbn [Faker.datetime_to_timestamp]; unfold SECONDS_PER_DAY; lia).
  intros followup w4 [_ ->].
  call randint_returns by lia. intros status w5 [_ ->].
  call randint_returns by lia. intros lender w6 [_ ->].
  do 7 (call random_amount_returns by lia; intros ? ? ->).
  call randint_returns by lia. intros delinq w7 [_ ->].
  apply returns_ret. split; [reflexivity |].
  rewrite !skip_draws_add. unfold after_row, skip_draws.
  cbn [tape drawn clock asked locale]. f_equal; lia.
Qed.

(** Without that room the generator raises: either the clock is before
    the epoch and [fake.date_time] has an empty range, or the range of
    [next_payment_on] is empty. *)
Lemma generate_loan_info_row_raises loan_id w :
  row_ready w = false -> generate_loan_info_row loan_id w = inl ValueError.
Proof.
  unfold row_ready. intros Hr. unfold generate_loan_info_row.
  destruct (Z.leb_spec 0 (clock w (asked w))) as [Hnow | Hnow].
  - simpl in Hr. apply Z.leb_gt in Hr.
    assert (Hrec : Faker.date_time w
                   = inr (tape w (drawn w) mod (clock w (asked w) + 1),
                          skip_draws 1 (mkWorld (tape w) (drawn w) (clock w)
                                          (N.succ (asked w)) (locale w)))).
    { unfold Faker.date_time. erewrite bind_eq by reflexivity.
      rewrite rand_seconds_run by (simpl; lia). simpl.
      rewrite Z.sub_0_r. reflexivity. }
    rewrite (bind_eq _ _ _ _ _ Hrec).
    erewrite bind_eq by reflexivity.
    apply bind_raise. unfold Faker.date_between_dates. apply bind_raise.
    apply rand_seconds_empty. simpl. lia.
  - apply bind_raise. unfold Faker.date_time.
    erewrite bind_eq by reflexivity. apply rand_seconds_empty. simpl. lia.
Qed.

(** C1: every row that [generate_loan_info_row] produces has
    [previous_payment_on <= followup_on <= next_payment_on]. *)
Theorem loan_info_row_dates_ordered loan_id w row w' :
  generate_loan_info_row loan_id w = inr (row, w') ->
  previous_payment_on row <= followup_on row <= next_payment_on row.
Proof.
  intros H. apply generate_loan_info_row_inr in H. apply (rf_followup _ _ H).
Qed.

Lemma loan_info_row_dates_ordered_witness :
  exists row w',
    generate_loan_info_row 3 calm_world = inr (row, w') /\
    previous_payment_on row <= followup_on row <= next_payment_on row.
Proof.
  destruct (generate_loan_info_row_returns 3 calm_world)
    as (row & w' & Hrun & _); [vm_compute; reflexivity |].
  exists row, w'. split; [exact Hrun |].
  exact (loan_info_row_dates_ordered 3 calm_world row w' Hrun).
Defined.

(** C2, as the code has it: in every row that [generate_loan_info_row]
    produces, [previous_payment_on] is the day of [recorded_on] or one of
    the 70 days before it (between 0 and 70 days earlier), and midnight of
    that day is not after the recorded instant. *)
Theorem loan_info_row_previous_payment loan_id w row w' :
  generate_loan_info_row loan_id w = inr (row, w') ->
  0 <= date_of (recorded_on row) - previous_payment_on row <= 70 /\
  previous_payment_on row * SECONDS_PER_DAY <= recorded_on row.
Proof.
  intros H. apply generate_loan_info_row_inr in H.
  pose proof (rf_prev_hi _ _ H). pose proof (rf_prev_lo _ _ H).
  pose proof (rf_prev_ts _ _ H). lia.
Qed.

Lemma loan_info_row_previous_payment_witness :
  exists row w',
    generate_loan_info_row 3 calm_world = inr (row, w') /\
    0 <= date_of (recorded_on row) - previous_payment_on row <= 70 /\
    previous_payment_on row * SECONDS_PER_DAY <= recorded_on row.
Proof.
  destruct (generate_loan_info_row_returns 3 calm_world)
    as (row & w' & Hrun & _); [vm_compute; reflexivity |].
  exists row, w'. split; [exact Hrun |].
  exact (loan_info_row_previous_payment 3 calm_world row w' Hrun).
Defined.

(** C2 as stated fails: a row recorded on day 18518 (2020-09-13) whose
    previous payment falls on that same day, 0 days before it and not at
    least 7. *)
Lemma previous_payment_may_be_same_day :
  exists row w',
    generate_loan_info_row 0 same_day_world = inr (row, w') /\
    recorded_on row = 1600000000 /\
    previous_payment_on row = 18518 /\
    date_of (recorded_on row) - previous_payment_on row = 0 /\
    ~ (7 <= date_of (recorded_on row) - previous_payment_on row <= 70).
Proof.
  eexists. eexists. split; [vm_compute; reflexivity |].
  repeat split; try reflexivity. vm_compute. intros [H _]. apply H. reflexivity.
Qed.

(** C3 fails on the code: when the recorded instant is drawn five days
    before now, the draw of [next_payment_on] has an empty range and the
    generator raises [ValueError]. *)
Theorem loan_info_row_raises_when_recorded_recently :
  generate_loan_info_row 0 late_world = inl ValueError.
Proof.
  apply generate_loan_info_row_raises. vm_compute. reflexivity.
Qed.



(** ** [range] and comprehensions *)

Lemma range_length a b : Py.len (Py.range a b) = Z.max 0 (b - a).
Proof.
  unfold Py.len, Py.range. rewrite length_map, length_seq. lia.
Qed.

Lemma range_nth a b i d :
  0 <= i < b - a -> nth (Z.to_nat i) (Py.range a b) d = a + i.
Proof.
  intros Hi. unfold Py.range.
  rewrite (nth_indep _ d (a + Z.of_nat 0))
    by (rewrite length_map, length_seq; lia).
  rewrite (map_nth (fun i => a + Z.of_nat i)), seq_nth by lia. lia.
Qed.

Lemma range_In a b x : In x (Py.range a b) <-> a <= x < b.
Proof.
  unfold Py.range. rewrite in_map_iff. split.
  - intros (i & <- & Hi). apply in_seq in Hi. lia.
  - intros Hx. exists (Z.to_nat (x - a)). split; [lia |]. apply in_seq. lia.
Qed.

Lemma range_NoDup a b : NoDup (Py.range a b).
Proof.
  unfold Py.range. apply Finite.Injective_map_NoDup; [| apply seq_NoDup].
  intros i j Hij. lia.
Qed.

Lemma range_sorted a b : StronglySorted Z.lt (Py.range a b).
Proof.
  unfold Py.range. generalize (Z.to_nat (b - a)) as n. generalize 0%nat as s.
  intros s n. revert s. induction n as [| n IH]; intros s; simpl.
  - constructor.
  - constructor; [apply IH |]. apply Forall_forall. intros x Hx.
    apply in_map_iff in Hx. destruct Hx as (i & <- & Hi).
    apply in_seq in Hi. lia.
Qed.

(** A comprehension over a function that always returns. *)
Lemma comprehension_returns {A B} (f : A -> M B) (P : A -> B -> Prop) xs w :
  (forall x w0, returns (f x) w0 (fun b _ => P x b)) ->
  returns (comprehension f xs) w (fun bs _ => Forall2 P xs bs).
Proof.
  intros Hf. revert w. induction xs as [| x xs IH]; intros w; simpl.
  - apply returns_ret. constructor.
  - apply returns_bind. eapply returns_weaken; [apply Hf |].
    cbv beta. intros b w1 Hb. apply returns_bind.
    eapply returns_weaken; [apply IH |]. cbv beta. intros bs w2 Hbs.
    apply returns_ret. constructor; assumption.
Qed.

(** The same, following the world from one element to the next. *)
Lemma comprehension_threads {A B} (f : A -> M B) (P : A -> B -> Prop)
      (next : World -> World) xs w :
  (forall x w0, returns (f x) w0 (fun b w1 => P x b /\ w1 = next w0)) ->
  returns (comprehension f xs) w
    (fun bs w' => Forall2 P xs bs /\ w' = Nat.iter (length xs) next w).
Proof.
  intros Hf. revert w. induction xs as [| x xs IH]; intros w.
  - simpl. apply returns_ret. split; [constructor | reflexivity].
  - cbn [comprehension length]. apply returns_bind.
    eapply returns_weaken; [apply Hf |]. cbv beta. intros b w1 [Hb ->].
    apply returns_bind. eapply returns_weaken; [apply IH |]. cbv beta.
    intros bs w2 [Hbs ->]. apply returns_ret.
    split; [constructor; assumption | symmetry; apply Nat.iter_succ_r].
Qed.

(** A comprehension that returned. *)
Lemma comprehension_inr {A B} (f : A -> M B) (P : A -> B -> Prop) xs w bs w' :
  (forall x w0 b w1, f x w0 = inr (b, w1) -> P x b) ->
  comprehension f xs w = inr (bs, w') -> Forall2 P xs bs.
Proof.
  intros Hf. revert w bs. induction xs as [| x xs IH]; intros w bs H; simpl in H.
  - apply ret_inr in H. destruct H as [<- _]. constructor.
  - step H. step H. apply ret_inr in H. destruct H as [<- <-].
    constructor; [eapply Hf; eassumption | eapply IH; eassumption].
Qed.

Lemma Forall2_map_eq {A B} (g : B -> A) (xs : list A) (bs : list B) :
  Forall2 (fun x b => g b = x) xs bs -> map g bs = xs.
Proof. induction 1; simpl; congruence. Qed.

Lemma Forall2_Forall_r {A B} (P : B -> Prop) (xs : list A) (bs : list B) :
  Forall2 (fun _ b => P b) xs bs -> Forall P bs.
Proof. induction 1; constructor; assumption. Qed.

(** ** Customers *)

Lemma faker_text_returns (c : M string) (g : Provider -> Z -> string) w :
  c = (p <- get_locale ;; r <- next_raw ;; ret (g p r)) ->
  returns c w (fun _ w' => w' = skip_draws 1 w).
Proof.
  intros ->. eexists. eexists. split; [reflexivity |].
  unfold skip_draws. simpl. rewrite N.add_1_r. reflexivity.
Qed.

Lemma generate_customer_returns customer_id w :
  returns (generate_customer customer_id) w
    (fun c w' => c_customer_id c = customer_id /\ 21 <= age c <= 100 /\
                 w' = skip_draws 4 w).
Proof.
  unfold generate_customer.
  call (faker_text_returns Faker.name name_text) by reflexivity.
  intros nm w1 ->.
  call (faker_text_returns Faker.address address_text) by reflexivity.
  intros ad w2 ->.
  call (faker_text_returns Faker.ssn ssn_text) by reflexivity.
  intros sn w3 ->.
  call randint_returns by lia. intros a w4 [Ha ->].
  apply returns_ret. simpl. repeat split; try lia.
  rewrite !skip_draws_add. reflexivity.
Qed.

(** C9: [generate_customer] always returns a record, whose age lies in
    21..100; so does every record of [generate_customers]. *)
Theorem customer_age_range :
  (forall customer_id w,
      returns (generate_customer customer_id) w
        (fun c _ => 21 <= age c <= 100)) /\
  (forall n w,
      returns (generate_customers n) w
        (fun cs _ => Forall (fun c => 21 <= age c <= 100) cs)).
Proof.
  assert (H1 : forall customer_id w,
             returns (generate_customer customer_id) w
               (fun c _ => 21 <= age c <= 100)).
  { intros customer_id w. eapply returns_weaken;
      [apply generate_customer_returns |]. cbv beta. tauto. }
  split; [exact H1 |]. intros n w. unfold generate_customers.
  eapply returns_weaken;
    [apply (comprehension_returns _ (fun _ c => 21 <= age c <= 100));
     exact H1 |].
  cbv beta. intros cs _ H. eapply Forall2_Forall_r. exact H.
Qed.

(** ** The association loop *)

Lemma bisect_le a x hi : (Py.bisect a x hi <= hi)%nat.
Proof.
  revert a. induction hi as [| hi IH]; intros [| e a]; simpl; try lia.
  destruct (Qle_bool e x); [specialize (IH a) |]; lia.
Qed.

(** The fan-out is drawn with one draw and is one of 1..5. *)
Lemma requested_fan_out_run w :
  (picked <- Py.choices FAN_OUT_POPULATION FAN_OUT_WEIGHTS ;; Py.item picked 0) w
  = inr (requested_fan_out w, skip_draws 1 w)
  /\ 1 <= requested_fan_out w <= 5.
Proof.
  unfold requested_fan_out.
  set (c := (picked <- Py.choices FAN_OUT_POPULATION FAN_OUT_WEIGHTS ;;
             Py.item picked 0)).
  assert (H : exists k, c w = inr (k, skip_draws 1 w) /\ 1 <= k <= 5).
  { unfold c, Py.choices.
    change (negb (length (Py.accumulate 0 FAN_OUT_WEIGHTS)
                  =? length FAN_OUT_POPULATION)%nat) with false.
    change (Qle_bool (last (Py.accumulate 0 FAN_OUT_WEIGHTS) 0%Q) 0) with false.
    cbv iota. cbn [Py.accumulate FAN_OUT_WEIGHTS]. cbv iota.
    unfold Py.random. rewrite !bind_assoc.
    rewrite (bind_eq _ _ _ _ _ (next_raw_run w)), bind_ret.
    set (i := Py.bisect _ _ _).
    assert (Hi : (i <= 4)%nat) by apply bisect_le.
    unfold Py.item, FAN_OUT_POPULATION.
    do 5 (destruct i as [| i];
          [eexists; split; [reflexivity | lia] |]).
    lia. }
  destruct H as (k & -> & Hk). split; [reflexivity | exact Hk].
Qed.

(** Every fan-out of the population is drawn by some outcome of
    [random()]: 0.5, 0.8, 0.92, 0.97 and 0.995 of 2^53. *)
Example fan_outs_reached :
  map (fun r => requested_fan_out (world_of (fun _ => r) 0))
    [4503599627370496; 7205759403792794; 8286623314361713;
     8736983276098762; 8989184854671511]
  = [1; 2; 3; 4; 5].
Proof. vm_compute. reflexivity. Qed.

Example pop_from_the_end :
  Py.pop [10; 20; 30] (-1) calm_world = inr ((30, [10; 20]), calm_world) /\
  Py.pop [10; 20; 30] 3 calm_world = inl IndexError.
Proof. split; reflexivity. Qed.

Example loan_statuses :
  generate_loan_statuses calm_world
  = inr ([mkLoanStatus 0 "GREEN"; mkLoanStatus 1 "YELLOW";
          mkLoanStatus 2 "RED"], calm_world).
Proof. reflexivity. Qed.

Lemma nth_error_remove {A} (l : list A) n x :
  nth_error l n = Some x ->
  Permutation l (x :: firstn n l ++ skipn (S n) l).
Proof.
  revert l. induction n as [| n IH]; intros [| y l] H; simpl in H;
    try discriminate.
  - injection H as ->. reflexivity.
  - specialize (IH l H). cbn [firstn skipn app].
    rewrite perm_swap. apply perm_skip. exact IH.
Qed.

Lemma pop_run {A} (l : list A) i w :
  0 <= i < Py.len l ->
  exists x,
    nth_error l (Z.to_nat i) = Some x /\
    Py.pop l i w
    = inr ((x, firstn (Z.to_nat i) l ++ skipn (S (Z.to_nat i)) l), w).
Proof.
  intros Hi. unfold Py.pop.
  destruct (Z.ltb_spec i 0); [lia |].
  destruct (Z.leb_spec 0 i); [| lia].
  destruct (Z.ltb_spec i (Py.len l)); [| lia]. simpl.
  destruct (nth_error l (Z.to_nat i)) as [x |] eqn:Hx.
  - exists x. split; reflexivity.
  - apply nth_error_None in Hx. unfold Py.len in Hi. lia.
Qed.

(** One draw from a pool that is not empty. *)
Lemma draw_loan_returns cid x pool lcl w :
  pool <> [] ->
  returns (draw_loan cid x (pool, lcl)) w
    (fun vars w' =>
       exists id, snd vars = lcl ++ [mkCustomerLoan id cid] /\
                  Permutation pool (id :: fst vars) /\
                  w' = skip_draws 1 w).
Proof.
  intros Hne. unfold draw_loan.
  assert (Hlen : 0 <= Py.len pool - 1).
  { unfold Py.len. destruct pool; [congruence | cbn [length]; lia]. }
  call randint_returns by (exact Hlen). intros i w1 [Hi ->].
  destruct (pop_run pool i (skip_draws 1 w)) as (id & Hnth & Hpop); [lia |].
  apply returns_bind. exists (id, firstn (Z.to_nat i) pool
                                    ++ skipn (S (Z.to_nat i)) pool).
  exists (skip_draws 1 w). split; [exact Hpop |].
  apply returns_ret. exists id. simpl.
  split; [reflexivity |]. split; [| reflexivity].
  apply nth_error_remove. exact Hnth.
Qed.

(** One draw from the empty pool. *)
Lemma draw_loan_raises cid x lcl w :
  draw_loan cid x ([], lcl) w = inl ValueError.
Proof.
  unfold draw_loan. apply bind_raise. apply randint_empty. reflexivity.
Qed.

Lemma draw_loans_returns cid (xs : list Z) pool lcl w :
  (length xs <= length pool)%nat ->
  returns (for_each xs (draw_loan cid) (pool, lcl)) w
    (fun vars w' =>
       exists blk,
         snd vars = lcl ++ blk /\
         length blk = length xs /\
         Forall (fun r => customer_id r = cid) blk /\
         Permutation pool (map loan_id blk ++ fst vars) /\
         w' = skip_draws (N.of_nat (length xs)) w).
Proof.
  revert pool lcl w. induction xs as [| x xs IH]; intros pool lcl w Hlen.
  - simpl. apply returns_ret. exists []. simpl.
    rewrite app_nil_r, skip_draws_0. repeat split; auto.
  - cbn [for_each]. apply returns_bind.
    eapply returns_weaken;
      [apply draw_loan_returns; destruct pool; simpl in Hlen; [lia | congruence] |].
    cbv beta. intros [pool1 lcl1] w1 (id & Hl & Hp & ->). simpl in Hl, Hp.
    subst lcl1. apply Permutation_length in Hp as Hpl. simpl in Hpl, Hlen.
    eapply returns_weaken; [apply IH; lia |]. cbv beta.
    intros [pool2 lcl2] w2 (blk & Hl2 & Hb & Hc & Hp2 & ->). simpl in *.
    exists (mkCustomerLoan id cid :: blk). simpl.
    repeat split.
    + rewrite Hl2, <- app_assoc. reflexivity.
    + lia.
    + constructor; [reflexivity | exact Hc].
    + rewrite Hp. apply perm_skip. exact Hp2.
    + rewrite skip_draws_add. f_equal. lia.
Qed.

Lemma draw_loans_raises cid (xs : list Z) pool lcl w :
  (length pool < length xs)%nat ->
  for_each xs (draw_loan cid) (pool, lcl) w = inl ValueError.
Proof.
  revert pool lcl w. induction xs as [| x xs IH]; intros pool lcl w Hlen.
  - simpl in Hlen. lia.
  - cbn [for_each]. destruct pool as [| p pool].
    + apply bind_raise. apply draw_loan_raises.
    + destruct (draw_loan_returns cid x (p :: pool) lcl w)
        as ([pool1 lcl1] & w1 & Hrun & id & _ & Hp & _); [congruence |].
      rewrite (bind_eq _ _ _ _ _ Hrun). apply IH.
      apply Permutation_length in Hp. simpl in Hp, Hlen. lia.
Qed.

(** Serving a customer is drawing [requested_fan_out] loans. *)
Lemma serve_customer_run cid vars w :
  serve_customer cid vars w
  = for_each (Py.range 0 (requested_fan_out w)) (draw_loan cid) vars
      (skip_draws 1 w).
Proof.
  unfold serve_customer.
  rewrite <- (bind_assoc (Py.choices FAN_OUT_POPULATION FAN_OUT_WEIGHTS)
                (fun picked => Py.item picked 0)).
  rewrite (bind_eq _ _ _ _ _ (proj1 (requested_fan_out_run w))). reflexivity.
Qed.

Lemma range_length_nat k : length (Py.range 0 k) = Z.to_nat k.
Proof.
  unfold Py.range. rewrite length_map, length_seq. f_equal. lia.
Qed.

Lemma serve_customer_returns cid pool lcl w :
  requested_fan_out w <= Py.len pool ->
  returns (serve_customer cid (pool, lcl)) w
    (fun vars w' =>
       exists blk,
         snd vars = lcl ++ blk /\
         Py.len blk = requested_fan_out w /\
         Forall (fun r => customer_id r = cid) blk /\
         Permutation pool (map loan_id blk ++ fst vars) /\
         w' = skip_draws (1 + Z.to_N (requested_fan_out w)) w).
Proof.
  intros Hk. pose proof (proj2 (requested_fan_out_run w)) as Hr.
  destruct (draw_loans_returns cid (Py.range 0 (requested_fan_out w))
              pool lcl (skip_draws 1 w))
    as (vars & w' & Hrun & blk & Hl & Hb & Hc & Hp & Hw).
  { rewrite range_length_nat. unfold Py.len in Hk. lia. }
  exists vars, w'. split; [rewrite serve_customer_run; exact Hrun |].
  exists blk. rewrite range_length_nat in Hb, Hw.
  repeat split; try assumption.
  - unfold Py.len. lia.
  - rewrite Hw, skip_draws_add, Z_nat_N. reflexivity.
Qed.

Lemma serve_customer_raises cid pool lcl w :
  Py.len pool < requested_fan_out w ->
  serve_customer cid (pool, lcl) w = inl ValueError.
Proof.
  intros Hk. rewrite serve_customer_run. apply draw_loans_raises.
  rewrite range_length_nat. unfold Py.len in Hk. lia.
Qed.

Lemma requested_fan_outs_range n w :
  Forall (fun k => 1 <= k <= 5) (requested_fan_outs n w).
Proof.
  revert w. induction n as [| n IH]; intros w; simpl; constructor.
  - apply requested_fan_out_run.
  - apply IH.
Qed.

Lemma requested_fan_outs_length n w : length (requested_fan_outs n w) = n.
Proof.
  revert w. induction n as [| n IH]; intros w; simpl; [| rewrite IH];
    reflexivity.
Qed.

Lemma total_cons k ks : total (k :: ks) = k + total ks.
Proof. reflexivity. Qed.

Lemma total_at_least_length ks :
  Forall (fun k => 1 <= k <= 5) ks -> Py.len ks <= total ks <= 5 * Py.len ks.
Proof.
  unfold Py.len. induction 1 as [| k ks Hk Hks IH].
  - simpl. lia.
  - rewrite total_cons. cbn [length]. lia.
Qed.

Lemma requested_total_nonneg n w : 0 <= total (requested_fan_outs n w).
Proof.
  pose proof (total_at_least_length _ (requested_fan_outs_range n w)) as H.
  unfold Py.len in H. lia.
Qed.

(** The whole loop over the customers, when the pool suffices. *)
Lemma serve_customers_returns cs pool lcl w :
  total (requested_fan_outs (length cs) w) <= Py.len pool ->
  returns (for_each cs serve_customer (pool, lcl)) w
    (fun vars _ =>
       exists blocks,
         snd vars = lcl ++ concat blocks /\
         blocks_for cs (requested_fan_outs (length cs) w) blocks /\
         Permutation pool (map loan_id (concat blocks) ++ fst vars)).
Proof.
  revert pool lcl w. induction cs as [| c cs IH]; intros pool lcl w Hk.
  - simpl. apply returns_ret. exists []. simpl. rewrite app_nil_r.
    repeat split; [constructor | reflexivity].
  - cbn [for_each length requested_fan_outs] in *. rewrite total_cons in Hk.
    pose proof (requested_total_nonneg (length cs)
                  (skip_draws (1 + Z.to_N (requested_fan_out w)) w)) as Hnn.
    apply returns_bind.
    eapply returns_weaken; [apply serve_customer_returns; lia |].
    cbv beta. intros [pool1 lcl1] w1 (blk & Hl & Hb & Hc & Hp & ->).
    simpl in Hl, Hp. subst lcl1.
    assert (Hlen : Py.len pool = Py.len blk + Py.len pool1).
    { apply Permutation_length in Hp. rewrite length_app, length_map in Hp.
      unfold Py.len. lia. }
    eapply returns_weaken; [apply IH; lia |]. cbv beta.
    intros [pool2 lcl2] w2 (blocks & Hl2 & Hbl & Hp2). simpl in *.
    exists (blk :: blocks). simpl. repeat split.
    + rewrite Hl2, <- app_assoc. reflexivity.
    + constructor; assumption.
    + rewrite Hp, map_app, <- app_assoc. apply Permutation_app_head.
      exact Hp2.
Qed.

(** The whole loop over the customers, when the pool runs out. *)
Lemma serve_customers_raises cs pool lcl w :
  Py.len pool < total (requested_fan_outs (length cs) w) ->
  for_each cs serve_customer (pool, lcl) w = inl ValueError.
Proof.
  revert pool lcl w. induction cs as [| c cs IH]; intros pool lcl w Hk.
  - simpl in Hk. unfold Py.len in Hk. lia.
  - cbn [for_each length requested_fan_outs] in *. rewrite total_cons in Hk.
    destruct (Z.lt_ge_cases (Py.len pool) (requested_fan_out w)) as [Hlt | Hge].
    + apply bind_raise. apply serve_customer_raises. exact Hlt.
    + destruct (serve_customer_returns c pool lcl w Hge)
        as ([pool1 lcl1] & w1 & Hrun & blk & _ & Hb & _ & Hp & ->).
      rewrite (bind_eq _ _ _ _ _ Hrun). apply IH. simpl in Hp.
      apply Permutation_length in Hp. rewrite length_app, length_map in Hp.
      unfold Py.len in *. lia.
Qed.

(** ** Blocks of records *)

Lemma blocks_for_len cs ks blocks :
  blocks_for cs ks blocks -> Py.len (concat blocks) = total ks.
Proof.
  induction 1 as [| c cs k ks blk blocks Hk Hc Hb IH]; [reflexivity |].
  simpl. unfold Py.len in *. rewrite length_app. lia.
Qed.

Lemma blocks_for_length cs ks blocks :
  blocks_for cs ks blocks -> length blocks = length cs.
Proof. induction 1; simpl; congruence. Qed.

Lemma blocks_for_nth cs ks blocks i blk :
  blocks_for cs ks blocks ->
  nth_error blocks i = Some blk ->
  exists c k,
    nth_error cs i = Some c /\ nth_error ks i = Some k /\
    Py.len blk = k /\ Forall (fun r => customer_id r = c) blk.
Proof.
  intros H. revert i. induction H as [| c cs k ks b blocks Hk Hc Hb IH];
    intros i Hi.
  - destruct i; discriminate.
  - destruct i as [| i]; simpl in Hi.
    + injection Hi as <-. exists c, k. repeat split; assumption.
    + apply IH. exact Hi.
Qed.

Lemma blocks_for_customers cs ks blocks :
  blocks_for cs ks blocks ->
  Forall (fun r => In (customer_id r) cs) (concat blocks).
Proof.
  induction 1 as [| c cs k ks blk blocks Hk Hc Hb IH]; simpl; [constructor |].
  apply Forall_app. split.
  - eapply Forall_impl; [| exact Hc]. simpl. intros r ->. left. reflexivity.
  - eapply Forall_impl; [| exact IH]. simpl. intros r Hr. right. exact Hr.
Qed.

Lemma blocks_for_sorted cs ks blocks :
  StronglySorted Z.le cs ->
  blocks_for cs ks blocks ->
  StronglySorted Z.le (map customer_id (concat blocks)).
Proof.
  intros Hs H. induction H as [| c cs k ks blk blocks Hk Hc Hb IH]; simpl.
  - constructor.
  - apply StronglySorted_inv in Hs. destruct Hs as [Hs Hle].
    specialize (IH Hs). pose proof (blocks_for_customers _ _ _ Hb) as Hin.
    clear Hk. induction Hc as [| r blk Hr Hc IHc]; simpl; [exact IH |].
    constructor; [exact IHc |].
    apply Forall_map. apply Forall_app. split.
    + eapply Forall_impl; [| exact Hc]. simpl. intros r' Hr'. lia.
    + eapply Forall_impl; [| exact Hin]. simpl. intros r' Hr'.
      rewrite Forall_forall in Hle. specialize (Hle _ Hr'). lia.
Qed.

Lemma StronglySorted_lt_le l : StronglySorted Z.lt l -> StronglySorted Z.le l.
Proof.
  induction 1 as [| x l Hs IH Hx]; constructor; [exact IH |].
  eapply Forall_impl; [| exact Hx]. simpl. intros. lia.
Qed.

Lemma NoDup_map_eq {A B} (f : A -> B) (l : list A) x y :
  NoDup (map f l) -> In x l -> In y l -> f x = f y -> x = y.
Proof.
  induction l as [| a l IH]; simpl; intros Hnd Hx Hy Hf; [contradiction |].
  apply NoDup_cons_iff in Hnd. destruct Hnd as [Hna Hnd].
  destruct Hx as [-> | Hx], Hy as [-> | Hy].
  - reflexivity.
  - exfalso. apply Hna. rewrite Hf. apply in_map. exact Hy.
  - exfalso. apply Hna. rewrite <- Hf. apply in_map. exact Hx.
  - apply IH; assumption.
Qed.

(** ** [associate_loans_with_customers] *)

Lemma associate_returns C L w :
  total (requested_fan_outs (Z.to_nat C) w) <= Z.max 0 L ->
  returns (associate_loans_with_customers C L) w
    (fun l _ => association_of C L w l).
Proof.
  intros Hk. unfold associate_loans_with_customers. apply returns_bind.
  eapply returns_weaken.
  - apply serve_customers_returns.
    rewrite range_length_nat, range_length. rewrite Z.sub_0_r. exact Hk.
  - cbv beta. intros [pool l] w1 (blocks & Hl & Hb & Hp). simpl in Hl, Hp.
    subst l. apply returns_ret. simpl. exists blocks, pool.
    rewrite range_length_nat in Hb. repeat split; assumption.
Qed.

Lemma associate_raises C L w :
  Z.max 0 L < total (requested_fan_outs (Z.to_nat C) w) ->
  associate_loans_with_customers C L w = inl ValueError.
Proof.
  intros Hk. unfold associate_loans_with_customers. apply bind_raise.
  apply serve_customers_raises.
  rewrite range_length_nat, range_length. rewrite Z.sub_0_r. exact Hk.
Qed.

Lemma associate_inr C L w l w' :
  associate_loans_with_customers C L w = inr (l, w') ->
  total (requested_fan_outs (Z.to_nat C) w) <= Z.max 0 L /\
  association_of C L w l.
Proof.
  intros H.
  destruct (Z.le_gt_cases (total (requested_fan_outs (Z.to_nat C) w))
              (Z.max 0 L)) as [Hle | Hgt].
  - split; [exact Hle |].
    destruct (associate_returns C L w Hle) as (l0 & w0 & Hrun & Ha).
    rewrite Hrun in H. injection H as <- _. exact Ha.
  - rewrite (associate_raises C L w Hgt) in H. discriminate.
Qed.

Lemma association_loans C L w l :
  association_of C L w l ->
  NoDup (map loan_id l) /\ Forall (fun r => 0 <= loan_id r < L) l.
Proof.
  intros (blocks & rest & _ & _ & Hp). split.
  - pose proof (range_NoDup 0 L) as Hnd.
    rewrite Hp in Hnd. apply NoDup_app_remove_r in Hnd. exact Hnd.
  - apply Forall_forall. intros r Hr.
    assert (Hin : In (loan_id r) (Py.range 0 L)).
    { eapply Permutation_in; [symmetry; exact Hp |].
      apply in_or_app. left. apply in_map. exact Hr. }
    apply range_In in Hin. exact Hin.
Qed.

Lemma association_length C L w l :
  association_of C L w l ->
  Py.len l = total (requested_fan_outs (Z.to_nat C) w) /\ Py.len l <= Z.max 0 L.
Proof.
  intros (blocks & rest & -> & Hb & Hp). split.
  - eapply blocks_for_len. exact Hb.
  - apply Permutation_length in Hp. rewrite length_app, length_map in Hp.
    pose proof (range_length 0 L) as Hl. unfold Py.len in *. lia.
Qed.


(** C4: when the fan-outs the customers ask for add up to more than
    [num_loans], [associate_loans_with_customers] raises [ValueError]; it
    returns no list. *)
Theorem exhausted_pool_raises C L w :
  0 <= L ->
  L < total (requested_fan_outs (Z.to_nat C) w) ->
  associate_loans_with_customers C L w = inl ValueError.
Proof.
  intros HL Hk. apply associate_raises. lia.
Qed.

Lemma exhausted_pool_raises_witness :
  0 <= 5 /\
  5 < total (requested_fan_outs (Z.to_nat 10) calm_world) /\
  associate_loans_with_customers 10 5 calm_world = inl ValueError.
Proof.
  split; [lia |]. split; [vm_compute; reflexivity |].
  apply (exhausted_pool_raises 10 5 calm_world); [lia | vm_compute; reflexivity].
Defined.

(** Fewer loans than customers: the association raises whatever is drawn. *)
Lemma fewer_loans_than_customers_raises C L w :
  0 <= L < C -> associate_loans_with_customers C L w = inl ValueError.
Proof.
  intros HL. apply associate_raises.
  pose proof (total_at_least_length _
                (requested_fan_outs_range (Z.to_nat C) w)) as Ht.
  unfold Py.len in Ht. rewrite requested_fan_outs_length in Ht. lia.
Qed.

(** C5: when [associate_loans_with_customers] returns, no loan_id occurs
    twice in its list, so a loan_id belongs to one customer_id; the list
    consists of one block per customer, as long as the fan-out drawn for
    it; its length is the sum of these fan-outs and at most [num_loans]. *)
Theorem association_loans_distinct C L w l w' :
  0 <= L ->
  associate_loans_with_customers C L w = inr (l, w') ->
  NoDup (map loan_id l) /\
  (forall r1 r2, In r1 l -> In r2 l -> loan_id r1 = loan_id r2 ->
                 customer_id r1 = customer_id r2) /\
  (exists blocks,
      l = concat blocks /\
      blocks_for (Py.range 0 C) (requested_fan_outs (Z.to_nat C) w) blocks) /\
  Py.len l = total (requested_fan_outs (Z.to_nat C) w) /\
  Py.len l <= L.
Proof.
  intros HL H. apply associate_inr in H. destruct H as [_ Ha].
  destruct (association_loans _ _ _ _ Ha) as [Hnd _].
  destruct (association_length _ _ _ _ Ha) as [Hlen Hle].
  split; [exact Hnd |]. split.
  - intros r1 r2 H1 H2 Heq. f_equal. eapply NoDup_map_eq; eassumption.
  - split; [| split; [exact Hlen | lia]].
    destruct Ha as (blocks & rest & Hl & Hb & _). exists blocks.
    split; assumption.
Qed.

Lemma association_loans_distinct_witness :
  exists l w',
    associate_loans_with_customers 3 10 calm_world = inr (l, w') /\
    NoDup (map loan_id l) /\
    (forall r1 r2, In r1 l -> In r2 l -> loan_id r1 = loan_id r2 ->
                   customer_id r1 = customer_id r2) /\
    (exists blocks,
        l = concat blocks /\
        blocks_for (Py.range 0 3)
          (requested_fan_outs (Z.to_nat 3) calm_world) blocks) /\
    Py.len l = total (requested_fan_outs (Z.to_nat 3) calm_world) /\
    Py.len l <= 10.
Proof.
  destruct (associate_returns 3 10 calm_world) as (l & w' & Hrun & _);
    [apply Z.leb_le; vm_compute; reflexivity |].
  exists l, w'. split; [exact Hrun |].
  apply (association_loans_distinct 3 10 calm_world l w'); [lia | exact Hrun].
Defined.

(** C10: when [associate_loans_with_customers] returns, the customer_ids
    of its list are nondecreasing, the list is the concatenation of one
    block per customer 0..num_customers-1 in this order, each of 1 to 5
    records, and every loan_id lies in 0..num_loans-1. *)
Theorem association_grouped_by_customer C L w l w' :
  associate_loans_with_customers C L w = inr (l, w') ->
  StronglySorted Z.le (map customer_id l) /\
  (exists blocks,
      l = concat blocks /\
      length blocks = Z.to_nat C /\
      forall i blk,
        nth_error blocks i = Some blk ->
        1 <= Py.len blk <= 5 /\
        Forall (fun r => customer_id r = Z.of_nat i) blk) /\
  Forall (fun r => 0 <= loan_id r < L) l.
Proof.
  intros H. apply associate_inr in H. destruct H as [_ Ha].
  destruct (association_loans _ _ _ _ Ha) as [_ Hin].
  destruct Ha as (blocks & rest & -> & Hb & _).
  split; [| split; [| exact Hin]].
  - eapply blocks_for_sorted; [| exact Hb].
    apply StronglySorted_lt_le. apply range_sorted.
  - exists blocks. split; [reflexivity |]. split.
    + rewrite (blocks_for_length _ _ _ Hb). apply range_length_nat.
    + intros i blk Hi.
      destruct (blocks_for_nth _ _ _ _ _ Hb Hi) as (c & k & Hc & Hk & Hlen & Hall).
      assert (Hci : c = Z.of_nat i).
      { assert (Hlt : (i < length (Py.range 0 C))%nat)
          by (apply nth_error_Some; congruence).
        rewrite range_length_nat in Hlt.
        apply (nth_error_nth _ _ 0) in Hc.
        rewrite <- (Nat2Z.id i), range_nth in Hc by lia. lia. }
      subst c. split; [| exact Hall].
      pose proof (requested_fan_outs_range (Z.to_nat C) w) as Hks.
      rewrite Forall_forall in Hks. apply nth_error_In in Hk.
      specialize (Hks _ Hk). lia.
Qed.

Lemma association_grouped_by_customer_witness :
  exists l w',
    associate_loans_with_customers 3 10 calm_world = inr (l, w') /\
    StronglySorted Z.le (map customer_id l) /\
    (exists blocks,
        l = concat blocks /\
        length blocks = Z.to_nat 3 /\
        forall i blk,
          nth_error blocks i = Some blk ->
          1 <= Py.len blk <= 5 /\
          Forall (fun r => customer_id r = Z.of_nat i) blk) /\
    Forall (fun r => 0 <= loan_id r < 10) l.
Proof.
  destruct (associate_returns 3 10 calm_world) as (l & w' & Hrun & _);
    [apply Z.leb_le; vm_compute; reflexivity |].
  exists l, w'. split; [exact Hrun |].
  exact (association_grouped_by_customer 3 10 calm_world l w' Hrun).
Defined.

(** ** The batch generators *)

Lemma generate_customers_returns n w :
  returns (generate_customers n) w
    (fun cs w' =>
       map c_customer_id cs = Py.range 0 (n + 1) /\
       w' = Nat.iter (Z.to_nat (n + 1)) (skip_draws 4) w).
Proof.
  unfold generate_customers.
  eapply returns_weaken;
    [apply (comprehension_threads _ (fun x c => c_customer_id c = x)
              (skip_draws 4)) |].
  - intros x w0. eapply returns_weaken; [apply generate_customer_returns |].
    cbv beta. tauto.
  - cbv beta. intros cs w' [H ->]. rewrite range_length_nat.
    split; [apply Forall2_map_eq; exact H | reflexivity].
Qed.

Lemma generate_lenders_returns num_lenders w :
  returns (generate_lenders num_lenders) w
    (fun _ w' => w' = Nat.iter (Z.to_nat num_lenders) (skip_draws 1) w).
Proof.
  unfold generate_lenders.
  eapply returns_weaken;
    [apply (comprehension_threads _ (fun _ _ => True) (skip_draws 1)) |].
  - intros x w0. unfold generate_lender.
    call (faker_text_returns Faker.company company_text) by reflexivity.
    intros company w1 ->. apply returns_ret. split; [exact I | reflexivity].
  - cbv beta. intros ls w' [_ ->]. rewrite range_length_nat. reflexivity.
Qed.

Lemma generate_loan_info_rows_inr n w rows w' :
  generate_loan_info_rows n w = inr (rows, w') ->
  map li_loan_id rows = Py.range 0 (n + 1).
Proof.
  unfold generate_loan_info_rows. intros H. apply Forall2_map_eq.
  eapply comprehension_inr; [| exact H]. cbv beta.
  intros x w0 row w1 Hrow. apply generate_loan_info_row_inr in Hrow.
  apply (rf_id _ _ Hrow).
Qed.

Lemma loan_info_rows_returns xs w :
  rows_ready (length xs) w = true ->
  returns (comprehension generate_loan_info_row xs) w
    (fun rows w' =>
       map li_loan_id rows = xs /\ w' = Nat.iter (length xs) after_row w).
Proof.
  revert w. induction xs as [| x xs IH]; intros w Hr;
    cbn [comprehension length rows_ready] in *.
  - apply returns_ret. split; reflexivity.
  - apply andb_prop in Hr. destruct Hr as [Hr1 Hr2].
    call generate_loan_info_row_returns by (exact Hr1).
    intros row w1 [Hid ->]. apply returns_bind.
    eapply returns_weaken; [apply IH; exact Hr2 |]. cbv beta.
    intros rows w2 [Hrows ->]. apply returns_ret.
    split; [simpl; congruence | symmetry; apply Nat.iter_succ_r].
Qed.

Lemma loan_info_rows_raises xs w :
  rows_ready (length xs) w = false ->
  comprehension generate_loan_info_row xs w = inl ValueError.
Proof.
  revert w. induction xs as [| x xs IH]; intros w Hr;
    cbn [comprehension length rows_ready] in *; [discriminate |].
  destruct (row_ready w) eqn:Hrow.
  - destruct (generate_loan_info_row_returns x w Hrow)
      as (row & w1 & Hrun & _ & ->).
    rewrite (bind_eq _ _ _ _ _ Hrun). apply bind_raise. apply IH. exact Hr.
  - apply bind_raise. apply generate_loan_info_row_raises. exact Hrow.
Qed.

Lemma generate_loan_info_rows_returns n w :
  rows_ready (Z.to_nat (n + 1)) w = true ->
  returns (generate_loan_info_rows n) w
    (fun rows w' =>
       map li_loan_id rows = Py.range 0 (n + 1) /\
       w' = Nat.iter (Z.to_nat (n + 1)) after_row w).
Proof.
  intros Hr. unfold generate_loan_info_rows.
  rewrite <- (range_length_nat (n + 1)). apply loan_info_rows_returns.
  rewrite range_length_nat. exact Hr.
Qed.

Lemma generate_loan_info_rows_raises n w :
  rows_ready (Z.to_nat (n + 1)) w = false ->
  generate_loan_info_rows n w = inl ValueError.
Proof.
  intros Hr. unfold generate_loan_info_rows. apply loan_info_rows_raises.
  rewrite range_length_nat. exact Hr.
Qed.



(** ** The whole dataset *)

Lemma generate_all_inr w t w' :
  generate_all w = inr (t, w') ->
  map li_loan_id (loan_info t) = Py.range 0 (DEFAULT_LOANS_MAX_NUMBER + 1) /\
  Forall (fun r => 0 <= loan_id r < DEFAULT_LOANS_MAX_NUMBER)
    (loan_customer_lookup t).
Proof.
  unfold generate_all. intros H. do 5 step H.
  apply ret_inr in H. destruct H as [<- _].
  cbn [loan_info loan_customer_lookup].
  split; [eapply generate_loan_info_rows_inr; eassumption |].
  apply associate_inr in Hcall3. destruct Hcall3 as [_ Ha].
  apply (association_loans _ _ _ _ Ha).
Qed.

(** Loan 500 has a row in [loan_info] and is never assigned. *)
Lemma last_loan_never_assigned w t w' :
  generate_all w = inr (t, w') ->
  In 500 (map li_loan_id (loan_info t)) /\
  ~ In 500 (map loan_id (loan_customer_lookup t)).
Proof.
  intros H. apply generate_all_inr in H. destruct H as [Hinfo Hlook]. split.
  - rewrite Hinfo. apply range_In. vm_compute. split; congruence.
  - intros Hin. apply in_map_iff in Hin. destruct Hin as (r & Hr & Hin).
    rewrite Forall_forall in Hlook. specialize (Hlook r Hin).
    unfold DEFAULT_LOANS_MAX_NUMBER, DEFAULT_CUSTOMER_NUMBER in Hlook. lia.
Qed.

(** With 100 customers and 500 loans the pool never runs out: the
    dataset is produced exactly when every row has room for its dates. *)
Lemma generate_all_returns w :
  dataset_ready w = true -> returns generate_all w (fun _ _ => True).
Proof.
  unfold dataset_ready. intros Hr. unfold generate_all.
  call generate_customers_returns by idtac. intros cs w1 [_ ->].
  call generate_loan_info_rows_returns by (exact Hr). intros rows w2 [_ ->].
  call generate_lenders_returns by idtac. intros ls w3 ->.
  apply returns_bind. eexists. eexists. split; [reflexivity |].
  apply returns_bind. eapply returns_weaken.
  - apply associate_returns.
    pose proof (total_at_least_length _
                  (requested_fan_outs_range
                     (Z.to_nat DEFAULT_CUSTOMER_NUMBER)
                     (Nat.iter (Z.to_nat 5) (skip_draws 1)
                        (Nat.iter (Z.to_nat (DEFAULT_LOANS_MAX_NUMBER + 1))
                           after_row
                           (Nat.iter (Z.to_nat (DEFAULT_CUSTOMER_NUMBER + 1))
                              (skip_draws 4) w))))) as Ht.
    unfold Py.len in Ht. rewrite requested_fan_outs_length in Ht.
    unfold DEFAULT_LOANS_MAX_NUMBER, DEFAULT_CUSTOMER_NUMBER in *. lia.
  - cbv beta. intros l w4 _. apply returns_ret. exact I.
Qed.

Lemma generate_all_raises w :
  dataset_ready w = false -> generate_all w = inl ValueError.
Proof.
  unfold dataset_ready. intros Hr. unfold generate_all.
  destruct (generate_customers_returns DEFAULT_CUSTOMER_NUMBER w)
    as (cs & w1 & Hrun & _ & ->).
  rewrite (bind_eq _ _ _ _ _ Hrun). apply bind_raise.
  apply generate_loan_info_rows_raises. exact Hr.
Qed.

(** C7, as the code has it: in the tables of [generate_all], every loan_id
    of [loan_customer_lookup] is a loan_id of [loan_info]. *)
Theorem lookup_loans_in_loan_info w t w' :
  generate_all w = inr (t, w') ->
  incl (map loan_id (loan_customer_lookup t)) (map li_loan_id (loan_info t)).
Proof.
  intros H. apply generate_all_inr in H. destruct H as [Hinfo Hlook].
  intros x Hx. apply in_map_iff in Hx. destruct Hx as (r & <- & Hr).
  rewrite Hinfo. apply range_In.
  rewrite Forall_forall in Hlook. specialize (Hlook r Hr). lia.
Qed.

Lemma lookup_loans_in_loan_info_witness :
  exists t w',
    generate_all calm_world = inr (t, w') /\
    incl (map loan_id (loan_customer_lookup t)) (map li_loan_id (loan_info t)).
Proof.
  destruct (generate_all_returns calm_world) as (t & w' & Hrun & _);
    [vm_compute; reflexivity |].
  exists t, w'. split; [exact Hrun |].
  exact (lookup_loans_in_loan_info calm_world t w' Hrun).
Defined.

(** C7 as stated fails: a run of [generate_all] whose two sets of loan_ids
    differ. *)
Lemma lookup_loans_not_all_of_loan_info :
  exists t w',
    generate_all calm_world = inr (t, w') /\
    ~ (incl (map loan_id (loan_customer_lookup t))
            (map li_loan_id (loan_info t)) /\
       forall x, In x (map loan_id (loan_customer_lookup t))
                 <-> In x (map li_loan_id (loan_info t))).
Proof.
  destruct (generate_all_returns calm_world) as (t & w' & Hrun & _);
    [vm_compute; reflexivity |].
  exists t, w'. split; [exact Hrun |]. intros [_ Heq].
  destruct (last_loan_never_assigned _ _ _ Hrun) as [Hin Hout].
  apply Hout. apply Heq. exact Hin.
Qed.

(** * Further properties of the generators *)

(** ** Helper lemmas *)

(** A computation that returns has one result. *)
Lemma returns_inr {A} (c : M A) w (P : A -> World -> Prop) a w' :
  returns c w P -> c w = inr (a, w') -> P a w'.
Proof.
  intros (a0 & w0 & Hrun & HP) H. rewrite Hrun in H. injection H as <- <-.
  exact HP.
Qed.

Lemma returns_and {A} (c : M A) w (P Q : A -> World -> Prop) :
  returns c w P -> (forall a w', c w = inr (a, w') -> Q a w') ->
  returns c w (fun a w' => P a w' /\ Q a w').
Proof.
  intros (a & w' & Hrun & HP) HQ. exists a, w'.
  split; [exact Hrun | split; [exact HP | apply HQ; exact Hrun]].
Qed.

Lemma datetime_now_inr w now w' :
  datetime_now w = inr (now, w') ->
  now = clock w (asked w) /\
  w' = mkWorld (tape w) (drawn w) (clock w) (N.succ (asked w)) (locale w).
Proof.
  intros H. apply (returns_inr _ _ _ _ _ (datetime_now_returns w) H).
Qed.

Lemma generate_loan_info_row_clock loan_id w row w' :
  generate_loan_info_row loan_id w = inr (row, w') -> row_clock_facts w row.
Proof.
  unfold generate_loan_info_row. intros H. step H. step H. step H.
  unfold Faker.date_time in Hcall. step Hcall.
  apply datetime_now_inr in Hcall2. destruct Hcall2 as [-> ->].
  apply rand_seconds_inr in Hcall. destruct Hcall as [Hrec ->].
  apply datetime_now_inr in Hcall0. destruct Hcall0 as [-> ->].
  cbn [skip_draws tape drawn clock asked locale] in Hcall1.
  apply date_between_dates_inr in Hcall1.
  cbn [Faker.datetime_to_timestamp] in Hcall1.
  rewrite date_of_shift in Hcall1.
  do 13 step H. apply ret_inr in H. destruct H as [<- _].
  constructor; cbn [recorded_on next_payment_on]; assumption.
Qed.



(** ** One LoanInfo row, further *)

(** X1: [generate_loan_info_row] either returns a row carrying the
    loan_id it was given, after 22 draws and two readings of the clock, or
    raises [ValueError]; it returns exactly when the clock is past the
    epoch and the recorded instant it draws first is at least ten days
    before now ([row_ready]). *)
Theorem loan_info_row_returns_or_raises loan_id w :
  (row_ready w = true /\
   exists row,
     generate_loan_info_row loan_id w = inr (row, after_row w) /\
     li_loan_id row = loan_id) \/
  (row_ready w = false /\
   generate_loan_info_row loan_id w = inl ValueError).
Proof.
  destruct (row_ready w) eqn:Hr.
  - left. split; [reflexivity |].
    destruct (generate_loan_info_row_returns loan_id w Hr)
      as (row & w' & Hrun & Hid & ->).
    exists row. split; assumption.
  - right. split; [reflexivity |].
    apply generate_loan_info_row_raises. exact Hr.
Qed.

(** X2: in every row that [generate_loan_info_row] produces, [recorded_on]
    lies between the epoch and the reading of the clock, and
    [next_payment_on] is at least ten days after the recorded day and not
    after the day of the clock. *)
Theorem loan_info_row_recorded_and_next loan_id w row w' :
  generate_loan_info_row loan_id w = inr (row, w') ->
  0 <= recorded_on row <= clock w (asked w) /\
  date_of (recorded_on row) + 10 <= next_payment_on row
  <= date_of (clock w (N.succ (asked w))).
Proof.
  intros H. apply generate_loan_info_row_clock in H.
  split; [apply (rc_recorded _ _ H) | apply (rc_next _ _ H)].
Qed.

Lemma loan_info_row_recorded_and_next_witness :
  exists row w',
    generate_loan_info_row 3 calm_world = inr (row, w') /\
    0 <= recorded_on row <= 1700000000 /\
    date_of (recorded_on row) + 10 <= next_payment_on row
    <= date_of 1700000000.
Proof.
  destruct (generate_loan_info_row_returns 3 calm_world)
    as (row & w' & Hrun & _); [vm_compute; reflexivity |].
  exists row, w'. split; [exact Hrun |].
  exact (loan_info_row_recorded_and_next 3 calm_world row w' Hrun).
Defined.



(** ** Customers and lenders, further *)

Lemma replace_char_absent old new s :
  old <> new -> ~ In old (list_ascii_of_string (Py.replace_char old new s)).
Proof.
  intros Hne. induction s as [| c s IH]; simpl; [tauto |].
  intros [Hc | Hin]; [| exact (IH Hin)].
  destruct (Ascii.eqb_spec c old) as [-> | Hco]; congruence.
Qed.

Lemma replace_char_length old new s :
  String.length (Py.replace_char old new s) = String.length s.
Proof. induction s as [| c s IH]; simpl; congruence. Qed.

Lemma generate_customer_inr customer_id w c w' :
  generate_customer customer_id w = inr (c, w') ->
  c_customer_id c = customer_id /\ single_line (address c) /\
  21 <= age c <= 100.
Proof.
  unfold generate_customer. intros H. do 4 step H.
  apply randint_inr in Hcall2. apply ret_inr in H. destruct H as [<- _].
  cbn [c_customer_id address age]. split; [reflexivity |].
  split; [| tauto]. apply replace_char_absent. discriminate.
Qed.

(** X4: [generate_customer] always returns a record that carries the
    customer_id it was given and whose address holds no line break (each
    one of Faker's address is replaced by a space). *)
Theorem customer_address_single_line customer_id w :
  returns (generate_customer customer_id) w
    (fun c _ => c_customer_id c = customer_id /\ single_line (address c)).
Proof.
  eapply returns_weaken.
  - apply returns_and; [apply generate_customer_returns |].
    intros c w' H. exact (generate_customer_inr _ _ _ _ H).
  - cbv beta. tauto.
Qed.

(** The address keeps the length of Faker's text: a line break becomes one
    space. *)
Example address_of_two_lines :
  let p := mkProvider (fun _ => "Ann Lee"%string)
             (fun _ => String "1" (String newline "2"))
             (fun _ => "000-00-0000"%string) (fun _ => "Acme"%string) in
  match generate_customer 7 (mkWorld (fun _ => 0) 0 (fun _ => 0) 0 p) with
  | inr (c, _) => Some (address c)
  | inl _ => None
  end = Some "1 2"%string.
Proof. reflexivity. Qed.

Lemma generate_lenders_inr num_lenders w ls w' :
  generate_lenders num_lenders w = inr (ls, w') ->
  map lender_id ls = Py.range 0 num_lenders.
Proof.
  unfold generate_lenders. intros H. apply Forall2_map_eq.
  eapply comprehension_inr; [| exact H]. cbv beta.
  intros x w0 l w1 Hl. unfold generate_lender in Hl. step Hl.
  apply ret_inr in Hl. destruct Hl as [<- _]. reflexivity.
Qed.

(** X5: [generate_lenders] never raises; it returns one lender for each id
    of 0..num_lenders-1, in this order, and no lender when [num_lenders] is
    zero or negative. *)
Theorem lenders_ids num_lenders w :
  returns (generate_lenders num_lenders) w
    (fun ls _ =>
       map lender_id ls = Py.range 0 num_lenders /\
       Py.len ls = Z.max 0 num_lenders /\
       (num_lenders <= 0 -> ls = [])).
Proof.
  eapply returns_weaken.
  - apply returns_and; [apply generate_lenders_returns |].
    intros ls w' H. exact (generate_lenders_inr _ _ _ _ H).
  - cbv beta. intros ls w' [_ Hids].
    assert (Hlen : Py.len ls = Z.max 0 num_lenders).
    { unfold Py.len. rewrite <- (length_map lender_id), Hids.
      fold (Py.len (Py.range 0 num_lenders)). rewrite range_length. lia. }
    split; [exact Hids |]. split; [exact Hlen |].
    intros Hn. destruct ls; [reflexivity |].
    unfold Py.len in Hlen. simpl length in Hlen. lia.
Qed.

(** ** The association, further *)

Lemma loans_of_app c l1 l2 :
  loans_of c (l1 ++ l2) = (loans_of c l1 + loans_of c l2)%nat.
Proof. unfold loans_of. rewrite map_app. apply count_occ_app. Qed.

Lemma loans_of_block c c0 blk :
  Forall (fun r => customer_id r = c0) blk ->
  loans_of c blk = if Z.eq_dec c0 c then length blk else 0%nat.
Proof.
  unfold loans_of. induction 1 as [| r blk Hr Hblk IH]; simpl.
  - destruct (Z.eq_dec c0 c); reflexivity.
  - rewrite Hr, IH. destruct (Z.eq_dec c0 c); reflexivity.
Qed.

Lemma loans_of_stranger cs ks blocks c :
  blocks_for cs ks blocks -> ~ In c cs -> loans_of c (concat blocks) = 0%nat.
Proof.
  intros Hb Hc. unfold loans_of. apply count_occ_not_In. intros Hin.
  apply in_map_iff in Hin. destruct Hin as (r & <- & Hr).
  pose proof (blocks_for_customers _ _ _ Hb) as Hall.
  rewrite Forall_forall in Hall. exact (Hc (Hall r Hr)).
Qed.

(** In the concatenation of the blocks, a customer owns its own block. *)
Lemma loans_of_customer cs ks blocks i c :
  blocks_for cs ks blocks -> NoDup cs ->
  nth_error cs i = Some c ->
  exists k, nth_error ks i = Some k /\
            Z.of_nat (loans_of c (concat blocks)) = k.
Proof.
  intros Hb. revert i. induction Hb as [| c0 cs k ks blk blocks Hk Hc Hb IH];
    intros i Hnd Hi.
  - destruct i; discriminate.
  - apply NoDup_cons_iff in Hnd. destruct Hnd as [Hnotin Hnd].
    cbn [concat]. rewrite loans_of_app, (loans_of_block c c0 blk Hc).
    destruct i as [| i]; simpl in Hi.
    + injection Hi as ->. exists k. split; [reflexivity |].
      rewrite (loans_of_stranger _ _ _ _ Hb Hnotin).
      destruct (Z.eq_dec c c); [| congruence]. unfold Py.len in Hk. lia.
    + destruct (IH i Hnd Hi) as (k' & Hk' & Hcount).
      exists k'. split; [exact Hk' |].
      destruct (Z.eq_dec c0 c) as [-> | _]; [| exact Hcount].
      exfalso. apply Hnotin. eapply nth_error_In. exact Hi.
Qed.

Lemma requested_nth n w i :
  (i < n)%nat ->
  exists k, nth_error (requested_fan_outs n w) i = Some k /\ 1 <= k <= 5.
Proof.
  intros Hi.
  destruct (nth_error (requested_fan_outs n w) i) as [k |] eqn:Hk.
  - exists k. split; [reflexivity |].
    pose proof (requested_fan_outs_range n w) as Hall.
    rewrite Forall_forall in Hall. apply Hall. eapply nth_error_In. exact Hk.
  - apply nth_error_None in Hk. rewrite requested_fan_outs_length in Hk. lia.
Qed.

(** X6: [associate_loans_with_customers] returns exactly when the fan-outs
    the customers draw add up to at most the size of the pool, and then
    with as many records as that sum; otherwise it raises [ValueError]. *)
Theorem association_returns_or_raises C L w :
  (total (requested_fan_outs (Z.to_nat C) w) <= Z.max 0 L /\
   exists l w',
     associate_loans_with_customers C L w = inr (l, w') /\
     Py.len l = total (requested_fan_outs (Z.to_nat C) w)) \/
  (Z.max 0 L < total (requested_fan_outs (Z.to_nat C) w) /\
   associate_loans_with_customers C L w = inl ValueError).
Proof.
  destruct (Z.le_gt_cases (total (requested_fan_outs (Z.to_nat C) w))
              (Z.max 0 L)) as [Hle | Hgt].
  - left. split; [exact Hle |].
    destruct (associate_returns C L w Hle) as (l & w' & Hrun & Ha).
    exists l, w'. split; [exact Hrun |].
    apply (association_length _ _ _ _ Ha).
  - right. split; [exact Hgt |]. apply associate_raises. exact Hgt.
Qed.

(** X7: with at least five loans for each customer the association never
    raises, whatever is drawn, and it returns between [num_customers] and
    [5 * num_customers] records. *)
Theorem association_returns_with_five_loans_each C L w :
  0 <= C -> 5 * C <= L ->
  returns (associate_loans_with_customers C L) w
    (fun l _ => C <= Py.len l <= 5 * C).
Proof.
  intros HC HL.
  pose proof (total_at_least_length _
                (requested_fan_outs_range (Z.to_nat C) w)) as Ht.
  unfold Py.len in Ht. rewrite requested_fan_outs_length in Ht.
  eapply returns_weaken; [apply associate_returns; lia |].
  cbv beta. intros l w' Ha.
  destruct (association_length _ _ _ _ Ha) as [Hlen _]. lia.
Qed.

Lemma association_returns_with_five_loans_each_witness :
  0 <= 3 /\ 5 * 3 <= 15 /\
  returns (associate_loans_with_customers 3 15) calm_world
    (fun l _ => 3 <= Py.len l <= 5 * 3).
Proof.
  split; [lia |]. split; [lia |].
  apply (association_returns_with_five_loans_each 3 15 calm_world); lia.
Defined.

(** X8: with fewer loans than customers the association raises
    [ValueError] whatever is drawn, also for a negative [num_loans]: each
    customer takes at least one loan. *)
Theorem association_raises_with_fewer_loans C L w :
  0 < C -> L < C ->
  associate_loans_with_customers C L w = inl ValueError.
Proof.
  intros HC HL. apply associate_raises.
  pose proof (total_at_least_length _
                (requested_fan_outs_range (Z.to_nat C) w)) as Ht.
  unfold Py.len in Ht. rewrite requested_fan_outs_length in Ht. lia.
Qed.

Lemma association_raises_with_fewer_loans_witness :
  0 < 10 /\ 5 < 10 /\
  associate_loans_with_customers 10 5 calm_world = inl ValueError.
Proof.
  split; [lia |]. split; [lia |].
  apply (association_raises_with_fewer_loans 10 5 calm_world); lia.
Defined.

Lemma association_of_counts C L w l :
  association_of C L w l ->
  (forall c, 0 <= c < C ->
     nth_error (requested_fan_outs (Z.to_nat C) w) (Z.to_nat c)
     = Some (Z.of_nat (loans_of c l)) /\
     (1 <= loans_of c l <= 5)%nat) /\
  (forall c, ~ 0 <= c < C -> loans_of c l = 0%nat).
Proof.
  intros (blocks & rest & -> & Hb & _). split.
  - intros c Hc.
    assert (Hnth : nth_error (Py.range 0 C) (Z.to_nat c) = Some c).
    { rewrite <- (range_nth 0 C c 0) at 2 by lia.
      apply nth_error_nth'. rewrite range_length_nat. lia. }
    destruct (loans_of_customer _ _ _ _ _ Hb (range_NoDup 0 C) Hnth)
      as (k & Hk & Hcount).
    destruct (requested_nth (Z.to_nat C) w (Z.to_nat c)) as (k' & Hk' & Hr);
      [lia |].
    rewrite Hk in Hk'. injection Hk' as <-.
    split; [rewrite Hk, Hcount; reflexivity | lia].
  - intros c Hc. apply (loans_of_stranger _ _ _ _ Hb).
    rewrite range_In. exact Hc.
Qed.

(** X9: when [associate_loans_with_customers] returns, each customer of
    0..num_customers-1 owns as many records as the fan-out drawn for it,
    between 1 and 5, and no other customer_id owns any. *)
Theorem association_loans_per_customer C L w l w' :
  associate_loans_with_customers C L w = inr (l, w') ->
  (forall c, 0 <= c < C ->
     nth_error (requested_fan_outs (Z.to_nat C) w) (Z.to_nat c)
     = Some (Z.of_nat (loans_of c l)) /\
     (1 <= loans_of c l <= 5)%nat) /\
  (forall c, ~ 0 <= c < C -> loans_of c l = 0%nat).
Proof.
  intros H. apply associate_inr in H. destruct H as [_ Ha].
  apply association_of_counts with (L := L). exact Ha.
Qed.

Lemma association_loans_per_customer_witness :
  exists l w',
    associate_loans_with_customers 3 10 calm_world = inr (l, w') /\
    (forall c, 0 <= c < 3 ->
       nth_error (requested_fan_outs (Z.to_nat 3) calm_world) (Z.to_nat c)
       = Some (Z.of_nat (loans_of c l)) /\
       (1 <= loans_of c l <= 5)%nat) /\
    (forall c, ~ 0 <= c < 3 -> loans_of c l = 0%nat).
Proof.
  destruct (associate_returns 3 10 calm_world) as (l & w' & Hrun & _);
    [apply Z.leb_le; vm_compute; reflexivity |].
  exists l, w'. split; [exact Hrun |].
  exact (association_loans_per_customer 3 10 calm_world l w' Hrun).
Defined.

(** ** The batches and the whole dataset, further *)

Lemma generate_loan_info_row_dates loan_id w row w' :
  generate_loan_info_row loan_id w = inr (row, w') ->
  row_facts loan_id row /\ 0 <= recorded_on row.
Proof.
  intros H. split; [exact (generate_loan_info_row_inr _ _ _ _ H) |].
  apply generate_loan_info_row_clock in H. apply (rc_recorded _ _ H).
Qed.

Lemma generate_loan_info_rows_facts n w rows w' :
  generate_loan_info_rows n w = inr (rows, w') ->
  Forall2 (fun i row => row_facts i row /\ 0 <= recorded_on row)
    (Py.range 0 (n + 1)) rows.
Proof.
  unfold generate_loan_info_rows. intros H.
  eapply comprehension_inr; [| exact H]. cbv beta.
  intros x w0 row w1 Hrow. exact (generate_loan_info_row_dates _ _ _ _ Hrow).
Qed.

Lemma generate_customers_facts n w cs w' :
  generate_customers n w = inr (cs, w') ->
  Forall2 (fun i c => c_customer_id c = i /\ single_line (address c) /\
                      21 <= age c <= 100)
    (Py.range 0 (n + 1)) cs.
Proof.
  unfold generate_customers. intros H.
  eapply comprehension_inr; [| exact H]. cbv beta.
  intros x w0 c w1 Hc. exact (generate_customer_inr _ _ _ _ Hc).
Qed.

Lemma Forall2_Forall_weaken {A B} (P : A -> B -> Prop) (Q : B -> Prop)
      (xs : list A) (bs : list B) :
  (forall x b, P x b -> Q b) -> Forall2 P xs bs -> Forall Q bs.
Proof.
  intros HPQ. induction 1; constructor; eauto.
Qed.

(** The five tables of a run of [generate_all]. *)
Lemma generate_all_tables w t w' :
  generate_all w = inr (t, w') ->
  Forall2 (fun i c => c_customer_id c = i /\ single_line (address c) /\
                      21 <= age c <= 100)
    (Py.range 0 (DEFAULT_CUSTOMER_NUMBER + 1)) (customers t) /\
  Forall2 (fun i row => row_facts i row /\ 0 <= recorded_on row)
    (Py.range 0 (DEFAULT_LOANS_MAX_NUMBER + 1)) (loan_info t) /\
  map lender_id (lenders t) = Py.range 0 5 /\
  statuses t = [mkLoanStatus 0 "GREEN"; mkLoanStatus 1 "YELLOW";
                mkLoanStatus 2 "RED"] /\
  exists w3,
    association_of DEFAULT_CUSTOMER_NUMBER DEFAULT_LOANS_MAX_NUMBER w3
      (loan_customer_lookup t).
Proof.
  unfold generate_all. intros H. do 5 step H.
  apply ret_inr in H. destruct H as [<- _].
  cbn [customers loan_info lenders statuses loan_customer_lookup].
  split; [exact (generate_customers_facts _ _ _ _ Hcall) |].
  split; [exact (generate_loan_info_rows_facts _ _ _ _ Hcall0) |].
  split; [exact (generate_lenders_inr _ _ _ _ Hcall1) |].
  split.
  - unfold generate_loan_statuses in Hcall2. apply ret_inr in Hcall2.
    destruct Hcall2 as [<- _]. reflexivity.
  - exists w3. apply associate_inr in Hcall3. apply Hcall3.
Qed.

(** X10: every row of a batch that [generate_loan_info_rows] returns has
    its dates in order: [recorded_on] is not before the epoch,
    [previous_payment_on] is the recorded day or one of the 70 days before,
    [next_payment_on] comes at least ten days after [previous_payment_on],
    and [followup_on] lies between the two. *)
Theorem loan_info_rows_dates_in_order n w rows w' :
  generate_loan_info_rows n w = inr (rows, w') ->
  Forall (fun row =>
            0 <= recorded_on row /\
            date_of (recorded_on row) - 70 <= previous_payment_on row
            <= date_of (recorded_on row) /\
            previous_payment_on row + 10 <= next_payment_on row /\
            previous_payment_on row <= followup_on row
            <= next_payment_on row) rows.
Proof.
  intros H. apply generate_loan_info_rows_facts in H.
  eapply Forall2_Forall_weaken; [| exact H]. cbv beta.
  intros i row [Hf Hrec].
  pose proof (rf_next _ _ Hf). pose proof (rf_prev_hi _ _ Hf).
  pose proof (rf_prev_lo _ _ Hf). pose proof (rf_followup _ _ Hf). lia.
Qed.

Lemma loan_info_rows_dates_in_order_witness :
  exists rows w',
    generate_loan_info_rows 2 calm_world = inr (rows, w') /\
    Forall (fun row =>
              0 <= recorded_on row /\
              date_of (recorded_on row) - 70 <= previous_payment_on row
              <= date_of (recorded_on row) /\
              previous_payment_on row + 10 <= next_payment_on row /\
              previous_payment_on row <= followup_on row
              <= next_payment_on row) rows.
Proof.
  destruct (generate_loan_info_rows_returns 2 calm_world)
    as (rows & w' & Hrun & _); [vm_compute; reflexivity |].
  exists rows, w'. split; [exact Hrun |].
  exact (loan_info_rows_dates_in_order 2 calm_world rows w' Hrun).
Defined.

Lemma Forall2_length_len {A B} (P : A -> B -> Prop) xs bs :
  Forall2 P xs bs -> Py.len bs = Py.len xs.
Proof.
  intros H. apply Forall2_length in H. unfold Py.len. lia.
Qed.

Lemma lookup_length C L w l :
  association_of C L w l -> 0 <= C -> C <= Py.len l <= 5 * C.
Proof.
  intros Ha HC. destruct (association_length _ _ _ _ Ha) as [Hlen _].
  pose proof (total_at_least_length _
                (requested_fan_outs_range (Z.to_nat C) w)) as Ht.
  unfold Py.len in Ht. rewrite requested_fan_outs_length in Ht. lia.
Qed.

(** X11: the tables of [generate_all] hold the customers 0..100 (101
    rows), the loans 0..500 (501 rows), 5 lenders, 3 statuses, and between
    100 and 500 customer-loan pairs. *)
Theorem dataset_sizes w t w' :
  generate_all w = inr (t, w') ->
  map c_customer_id (customers t) = Py.range 0 101 /\
  map li_loan_id (loan_info t) = Py.range 0 501 /\
  Py.len (customers t) = 101 /\
  Py.len (loan_info t) = 501 /\
  Py.len (lenders t) = 5 /\
  Py.len (statuses t) = 3 /\
  100 <= Py.len (loan_customer_lookup t) <= 500.
Proof.
  intros H. apply generate_all_tables in H.
  destruct H as (Hc & Hr & Hl & Hs & w3 & Ha).
  split; [| split; [| split; [| split; [| split; [| split]]]]].
  - apply Forall2_map_eq. eapply Forall2_impl; [| exact Hc].
    cbv beta. tauto.
  - apply Forall2_map_eq. eapply Forall2_impl; [| exact Hr].
    cbv beta. intros i row [Hf _]. apply (rf_id _ _ Hf).
  - rewrite (Forall2_length_len _ _ _ Hc), range_length. reflexivity.
  - rewrite (Forall2_length_len _ _ _ Hr), range_length. reflexivity.
  - unfold Py.len. rewrite <- (length_map lender_id), Hl. reflexivity.
  - rewrite Hs. reflexivity.
  - apply (lookup_length _ _ _ _ Ha). discriminate.
Qed.

Lemma dataset_sizes_witness :
  exists t w',
    generate_all calm_world = inr (t, w') /\
    Py.len (customers t) = 101 /\ Py.len (loan_info t) = 501 /\
    100 <= Py.len (loan_customer_lookup t) <= 500.
Proof.
  destruct (generate_all_returns calm_world) as (t & w' & Hrun & _);
    [vm_compute; reflexivity |].
  exists t, w'. split; [exact Hrun |].
  destruct (dataset_sizes calm_world t w' Hrun)
    as (_ & _ & Hc & Hr & _ & _ & Hl).
  split; [exact Hc | split; [exact Hr | exact Hl]].
Defined.

(** X12: with its 100 customers and 500 loans [generate_all] never runs
    out of loans: it returns its tables exactly when each of the 501 loan
    rows has ten days between its recorded instant and now
    ([dataset_ready]), and raises [ValueError] otherwise. *)
Theorem dataset_returns_or_raises w :
  (dataset_ready w = true /\ exists t w', generate_all w = inr (t, w')) \/
  (dataset_ready w = false /\ generate_all w = inl ValueError).
Proof.
  destruct (dataset_ready w) eqn:Hr.
  - left. split; [reflexivity |].
    destruct (generate_all_returns w Hr) as (t & w' & Hrun & _).
    exists t, w'. exact Hrun.
  - right. split; [reflexivity |]. apply generate_all_raises. exact Hr.
Qed.

(** X13: in the tables of [generate_all] the statuses are GREEN, YELLOW
    and RED with the ids 0, 1 and 2, and the loan_status_id of every loan
    row is the id of one of them. *)
Theorem dataset_status_ids w t w' :
  generate_all w = inr (t, w') ->
  statuses t = [mkLoanStatus 0 "GREEN"; mkLoanStatus 1 "YELLOW";
                mkLoanStatus 2 "RED"] /\
  Forall (fun row => In (li_loan_status_id row)
                        (map loan_status_id (statuses t))) (loan_info t).
Proof.
  intros H. apply generate_all_tables in H.
  destruct H as (_ & Hr & _ & Hs & _). split; [exact Hs |].
  rewrite Hs. eapply Forall2_Forall_weaken; [| exact Hr]. cbv beta.
  intros i row [Hf _]. pose proof (rf_status _ _ Hf) as Hst.
  cbn [map loan_status_id].
  assert (Hcases : li_loan_status_id row = 0 \/ li_loan_status_id row = 1 \/
                   li_loan_status_id row = 2) by lia.
  destruct Hcases as [-> | [-> | ->]]; simpl; tauto.
Qed.

Lemma dataset_status_ids_witness :
  exists t w',
    generate_all calm_world = inr (t, w') /\
    Forall (fun row => In (li_loan_status_id row)
                          (map loan_status_id (statuses t))) (loan_info t).
Proof.
  destruct (generate_all_returns calm_world) as (t & w' & Hrun & _);
    [vm_compute; reflexivity |].
  exists t, w'. split; [exact Hrun |].
  exact (proj2 (dataset_status_ids calm_world t w' Hrun)).
Defined.

(** X14: in the tables of [generate_all] the lenders carry the ids 0..4
    while the lender_id of a loan row is drawn from 0..5: a row can name
    the lender 5, which the lenders table does not hold, and on some runs
    one does. *)
Theorem dataset_lender_ids :
  (forall w t w',
      generate_all w = inr (t, w') ->
      map lender_id (lenders t) = [0; 1; 2; 3; 4] /\
      Forall (fun row => 0 <= li_lender_id row <= 5) (loan_info t)) /\
  (exists w t w',
      generate_all w = inr (t, w') /\
      exists row,
        In row (loan_info t) /\
        ~ In (li_lender_id row) (map lender_id (lenders t))).
Proof.
  assert (Hall : forall w t w',
             generate_all w = inr (t, w') ->
             map lender_id (lenders t) = [0; 1; 2; 3; 4] /\
             Forall (fun row => 0 <= li_lender_id row <= 5) (loan_info t)).
  { intros w t w' H. apply generate_all_tables in H.
    destruct H as (_ & Hr & Hl & _). split; [exact Hl |].
    eapply Forall2_Forall_weaken; [| exact Hr]. cbv beta.
    intros i row [Hf _]. apply (rf_lender _ _ Hf). }
  split; [exact Hall |].
  assert (Hfive : match generate_all mixed_world with
                  | inr (t, _) => names_lender 5 (loan_info t)
                  | inl _ => false
                  end = true) by (vm_compute; reflexivity).
  destruct (generate_all mixed_world) as [e | [t w']] eqn:Hrun;
    [discriminate |].
  exists mixed_world, t, w'. split; [exact Hrun |].
  unfold names_lender in Hfive. apply existsb_exists in Hfive.
  destruct Hfive as (row & Hin & Hk). apply Z.eqb_eq in Hk.
  exists row. split; [exact Hin |].
  destruct (Hall _ _ _ Hrun) as [-> _]. rewrite Hk. simpl.
  intros [H | [H | [H | [H | [H | []]]]]]; discriminate.
Qed.

(** X15: in the tables of [generate_all] every customer_id of the lookup
    is that of a customer; each customer of 0..99 owns between 1 and 5
    loans; the customer 100, the last one generated, owns none. *)
Theorem dataset_customer_ids w t w' :
  generate_all w = inr (t, w') ->
  incl (map customer_id (loan_customer_lookup t))
       (map c_customer_id (customers t)) /\
  (forall c, 0 <= c < 100 ->
             (1 <= loans_of c (loan_customer_lookup t) <= 5)%nat) /\
  In 100 (map c_customer_id (customers t)) /\
  loans_of 100 (loan_customer_lookup t) = 0%nat.
Proof.
  intros H. apply generate_all_tables in H.
  destruct H as (Hc & _ & _ & _ & w3 & Ha).
  assert (Hids : map c_customer_id (customers t) = Py.range 0 101).
  { apply Forall2_map_eq. eapply Forall2_impl; [| exact Hc].
    cbv beta. tauto. }
  destruct (association_of_counts _ _ _ _ Ha) as [Hin Hout].
  split; [| split; [| split]].
  - intros c Hcin. rewrite Hids. apply range_In.
    destruct (Z.le_gt_cases 0 c) as [H0 | H0];
      [destruct (Z.lt_ge_cases c 100) as [H1 | H1]; [lia |] |];
      exfalso; apply (count_occ_In Z.eq_dec) in Hcin;
      fold (loans_of c (loan_customer_lookup t)) in Hcin;
      rewrite Hout in Hcin
        by (unfold DEFAULT_CUSTOMER_NUMBER; lia); lia.
  - intros c Hcr. apply Hin. exact Hcr.
  - rewrite Hids. apply range_In. lia.
  - apply Hout. unfold DEFAULT_CUSTOMER_NUMBER. lia.
Qed.

Lemma dataset_customer_ids_witness :
  exists t w',
    generate_all calm_world = inr (t, w') /\
    incl (map customer_id (loan_customer_lookup t))
         (map c_customer_id (customers t)) /\
    (forall c, 0 <= c < 100 ->
               (1 <= loans_of c (loan_customer_lookup t) <= 5)%nat) /\
    In 100 (map c_customer_id (customers t)) /\
    loans_of 100 (loan_customer_lookup t) = 0%nat.
Proof.
  destruct (generate_all_returns calm_world) as (t & w' & Hrun & _);
    [vm_compute; reflexivity |].
  exists t, w'. split; [exact Hrun |].
  exact (dataset_customer_ids calm_world t w' Hrun).
Defined.

Lemma range_empty a b : b <= a -> Py.range a b = [].
Proof.
  intros Hab. unfold Py.range.
  replace (Z.to_nat (b - a)) with 0%nat by lia. reflexivity.
Qed.

(** X16: a count below zero gives empty batches: [generate_customers] and
    [generate_loan_info_rows] return no record and draw nothing (the
    latter then never raises), and so does the association for no
    customers, whatever [num_loans] is. *)
Theorem empty_batches n L w :
  n < 0 ->
  generate_customers n w = inr ([], w) /\
  generate_loan_info_rows n w = inr ([], w) /\
  associate_loans_with_customers (n + 1) L w = inr ([], w).
Proof.
  intros Hn. unfold generate_customers, generate_loan_info_rows,
    associate_loans_with_customers.
  rewrite (range_empty 0 (n + 1)) by lia. repeat split; reflexivity.
Qed.

Lemma empty_batches_witness :
  -1 < 0 /\
  generate_customers (-1) late_world = inr ([], late_world) /\
  generate_loan_info_rows (-1) late_world = inr ([], late_world) /\
  associate_loans_with_customers 0 (-3) late_world = inr ([], late_world).
Proof.
  split; [lia |]. apply (empty_batches (-1) (-3) late_world). lia.
Defined.

(** X17: a batch of loan rows is all or nothing: [generate_loan_info_rows]
    returns its n+1 rows when every row in turn has ten days between its
    recorded instant and now ([rows_ready]); as soon as one has not, the
    call raises [ValueError] and returns no row. *)
Theorem loan_info_rows_all_or_nothing n w :
  (rows_ready (Z.to_nat (n + 1)) w = true /\
   exists rows w',
     generate_loan_info_rows n w = inr (rows, w') /\
     Py.len rows = Z.max 0 (n + 1)) \/
  (rows_ready (Z.to_nat (n + 1)) w = false /\
   generate_loan_info_rows n w = inl ValueError).
Proof.
  destruct (rows_ready (Z.to_nat (n + 1)) w) eqn:Hr.
  - left. split; [reflexivity |].
    destruct (generate_loan_info_rows_returns n w Hr)
      as (rows & w' & Hrun & Hids & _).
    exists rows, w'. split; [exact Hrun |].
    unfold Py.len. rewrite <- (length_map li_loan_id), Hids.
    fold (Py.len (Py.range 0 (n + 1))). rewrite range_length. lia.
  - right. split; [reflexivity |].
    apply generate_loan_info_rows_raises. exact Hr.
Qed.
